(** * hsc.py: the SEO domain checker, embedded and verified

    A shallow embedding of [src/hsc.py].  Python [str] values are modelled
    as [string], one [ascii] per character, read as the code points below
    256; Python [int] values as [Z]; [dict] values as association lists
    that keep the insertion order; exceptions and mutable state through a
    small state-and-exception monad. *)

From Stdlib Require Import ZArith List Bool Ascii String Lia Permutation.
From Stdlib Require Import DecimalString DecimalPos SpecFloat.
Import ListNotations.

Local Open Scope string_scope.
Local Open Scope Z_scope.

(** ** Python [str] methods used by the program *)

Module PyStr.

(** [str.isspace] on one character: the code points below 256 that
    Python counts as whitespace are 9..13, 28..32, 133 and 160. *)
Definition isspace (c : ascii) : bool :=
  let n := N_of_ascii c in
  ((9 <=? n) && (n <=? 13) || (28 <=? n) && (n <=? 32)
   || (n =? 133) || (n =? 160))%N.

(** [str.lower] on one character: [A-Z] and the upper-case letters of
    the range 192..222 (215, the multiplication sign, apart) move up by
    32; everything else is unchanged. *)
Definition lower_char (c : ascii) : ascii :=
  let n := N_of_ascii c in
  if ((65 <=? n) && (n <=? 90)
      || (192 <=? n) && (n <=? 222) && negb (n =? 215))%N
  then ascii_of_N (n + 32) else c.

Fixpoint lower (s : string) : string :=
  match s with
  | EmptyString => EmptyString
  | String c r => String (lower_char c) (lower r)
  end.

Fixpoint lstrip (s : string) : string :=
  match s with
  | EmptyString => EmptyString
  | String c r => if isspace c then lstrip r else s
  end.

Fixpoint rstrip (s : string) : string :=
  match s with
  | EmptyString => EmptyString
  | String c r =>
      match rstrip r with
      | EmptyString => if isspace c then EmptyString else String c EmptyString
      | r' => String c r'
      end
  end.

(** [s.strip()] *)
Definition strip (s : string) : string := rstrip (lstrip s).

(** Truth value of a [str]: non-empty. *)
Definition truthy (s : string) : bool :=
  match s with EmptyString => false | _ => true end.

(** [s.startswith(p)] *)
Definition startswith (s p : string) : bool := String.prefix p s.

(** [c in s] for a one-character [c]. *)
Fixpoint contains (c : ascii) (s : string) : bool :=
  match s with
  | EmptyString => false
  | String d r => Ascii.eqb c d || contains c r
  end.

(** [s.split(c)[0]]: the text before the first [c], all of [s] when
    there is none. *)
Fixpoint split_first (c : ascii) (s : string) : string :=
  match s with
  | EmptyString => EmptyString
  | String d r => if Ascii.eqb c d then EmptyString else String d (split_first c r)
  end.

(** [s[1:]] *)
Definition tail (s : string) : string :=
  match s with EmptyString => EmptyString | String _ r => r end.

(** [s.replace('```', '')]: the occurrences of three backticks are
    removed from left to right, without overlap. *)
Fixpoint replace_backticks (s : string) : string :=
  match s with
  | String "`" (String "`" (String "`" r)) => replace_backticks r
  | String c r => String c (replace_backticks r)
  | EmptyString => EmptyString
  end.

(** [str(n)] for an [int]. *)
Definition of_int (n : Z) : string := NilZero.string_of_int (Z.to_int n).

(** [s.ljust(w)], the [{s:<w}] format: pad with spaces on the right. *)
Fixpoint spaces (n : nat) : string :=
  match n with O => EmptyString | S k => String " " (spaces k) end.

Definition ljust (s : string) (w : nat) : string :=
  s ++ spaces (w - String.length s).

(** [s * n] *)
Fixpoint repeat (s : string) (n : nat) : string :=
  match n with O => EmptyString | S k => s ++ repeat s k end.

(** Equality of two strings up to the case of ASCII letters, written
    without [lower]: character by character, [c] matches the lower-case
    letter [d] when it is [d] or its upper-case form. *)
Definition upper_ascii (d : ascii) : ascii :=
  let n := N_of_ascii d in
  if ((97 <=? n) && (n <=? 122))%N then ascii_of_N (n - 32) else d.

Fixpoint any_case_of (pat s : string) : bool :=
  match pat, s with
  | EmptyString, EmptyString => true
  | String d p, String c r =>
      (Ascii.eqb c d || Ascii.eqb c (upper_ascii d)) && any_case_of p r
  | _, _ => false
  end.

End PyStr.

(** ** Exceptions and the state-and-exception monad *)

(** What a [requests] call can fail with; all of them derive from
    [requests.RequestException], hence from [Exception]. *)
Inductive request_failure : Type :=
| Timeout
| DNSFailure
| ConnectionRefused
| SSLError
| InvalidURL
| OtherRequestError (msg : string).

Inductive exn : Type :=
| RequestException (k : request_failure)
| FileNotFoundError
| ReadError (msg : string)
| KeyError (key : string)
| ZeroDivisionError
| OverflowError (msg : string)
| EOFError
| SystemExit (code : Z)
| KeyboardInterrupt.

(** [isinstance(e, Exception)]: [SystemExit] and [KeyboardInterrupt]
    derive from [BaseException] only. *)
Definition is_Exception (e : exn) : bool :=
  match e with
  | SystemExit _ | KeyboardInterrupt => false
  | _ => true
  end.

Inductive Res (A : Type) : Type :=
| Ret (a : A)
| Raise (e : exn).
Arguments Ret {A} a.
Arguments Raise {A} e.

(** A computation over a state [S]: the state survives a raise, as the
    variables and the effects of a Python [try] body do. *)
Definition M (S A : Type) : Type := S -> Res A * S.

Definition ret {S A} (a : A) : M S A := fun s => (Ret a, s).

Definition bind {S A B} (m : M S A) (k : A -> M S B) : M S B :=
  fun s =>
    match m s with
    | (Ret a, s') => k a s'
    | (Raise e, s') => (Raise e, s')
    end.

Definition raise {S A} (e : exn) : M S A := fun s => (Raise e, s).

Definition modify {S} (f : S -> S) : M S unit := fun s => (Ret tt, f s).

(** [try: body except Exception: handler] *)
Definition try_except_Exception {S A} (body : M S A) (handler : exn -> M S A)
  : M S A :=
  fun s =>
    match body s with
    | (Ret a, s') => (Ret a, s')
    | (Raise e, s') => if is_Exception e then handler e s' else (Raise e, s')
    end.

(** Lift an already computed result, as [future.result()] does. *)
Definition of_res {S A} (r : Res A) : M S A := fun s => (r, s).

Declare Scope py_scope.
Delimit Scope py_scope with py.
Notation "x <- m ;; k" := (bind m (fun x => k))
  (at level 61, m at next level, right associativity) : py_scope.
Notation "m ;;; k" := (bind m (fun _ => k))
  (at level 61, right associativity) : py_scope.
Local Open Scope py_scope.

(** ** The transport: what [requests.head] and [requests.get] do *)

Inductive http_method : Type := HEAD | GET.

Record request : Type := mkRequest {
  req_method : http_method;
  req_url : string;
  req_timeout : Z;
  req_allow_redirects : bool;
  req_user_agent : string
}.

Inductive outcome : Type :=
| Response (status_code : Z)
| Fails (k : request_failure).

(** One probe sends at most one HEAD and one GET, so a function of the
    request describes every behaviour of the network towards it. *)
Definition transport : Type := request -> outcome.

(** ** [check_url] *)

(** The frame of one [check_url] call: the local variable [url], which
    the [try] body reassigns, and the requests sent so far. *)
Record probe_state : Type := mkProbe {
  var_url : string;
  sent : list request
}.

Definition Probe (A : Type) : Type := M probe_state A.

Definition get_url : Probe string := fun s => (Ret (var_url s), s).

Definition set_url (u : string) : Probe unit :=
  modify (fun s => mkProbe u (sent s)).

Definition USER_AGENT : string :=
  "Mozilla/5.0 (Windows NT 10.0; Win64; x64) AppleWebKit/537.36".

(** [requests.head(...)] / [requests.get(...)]: the request is recorded,
    then the transport answers or the call raises. *)
Definition requests_call (net : transport) (m : http_method) (url : string)
    (timeout : Z) (allow_redirects : bool) (ua : string) : Probe Z :=
  fun s =>
    let r := mkRequest m url timeout allow_redirects ua in
    let s' := mkProbe (var_url s) (sent s ++ [r]) in
    match net r with
    | Response code => (Ret code, s')
    | Fails k => (Raise (RequestException k), s')
    end.

Definition requests_head := fun net => requests_call net HEAD.
Definition requests_get := fun net => requests_call net GET.

(** The guard of line 28:
    [url.strip().lower() == 'unavailable' or not url.strip()]. *)
Definition skipped (url : string) : bool :=
  String.eqb (PyStr.lower (PyStr.strip url)) "unavailable"
  || negb (PyStr.truthy (PyStr.strip url)).

Definition has_scheme (url : string) : bool :=
  PyStr.startswith url "http://" || PyStr.startswith url "https://".

Definition check_url_body (net : transport) (timeout : Z)
  : Probe (string * bool) :=
  url <- get_url ;;
  if skipped url then ret (url, false)
  else
    try_except_Exception
      (url <- get_url ;;
       (if negb (has_scheme url) then set_url ("https://" ++ url) else ret tt) ;;;
       url <- get_url ;;
       response <- requests_head net url timeout true USER_AGENT ;;
       response <- (if 400 <=? response
                    then requests_get net url timeout true USER_AGENT
                    else ret response) ;;
       url <- get_url ;;
       ret (url, response <? 400))
      (fun e => url <- get_url ;; ret (url, false)).

(** [check_url(url, timeout)]: the result, or the exception that escapes,
    and the requests that were sent. *)
Definition check_url (net : transport) (url : string) (timeout : Z)
  : Res (string * bool) * list request :=
  let '(r, s) := check_url_body net timeout (mkProbe url []) in (r, sent s).

Definition DEFAULT_TIMEOUT : Z := 10.

(** ** Python [dict] with [str] keys: insertion-ordered association list *)

Module PyDict.

Definition t (V : Type) : Type := list (string * V).

Fixpoint get {V} (k : string) (d : t V) : option V :=
  match d with
  | [] => None
  | (k', v) :: r => if String.eqb k k' then Some v else get k r
  end.

(** [d[k] = v]: an existing key keeps its place and takes the new
    value, a new key goes to the end. *)
Fixpoint set {V} (k : string) (v : V) (d : t V) : t V :=
  match d with
  | [] => [(k, v)]
  | (k', v') :: r =>
      if String.eqb k k' then (k, v) :: r else (k', v') :: set k v r
  end.

(** [d[k] = f(d[k])] for a key that is present; [None] stands for the
    [KeyError] of a missing key. *)
Fixpoint update {V} (k : string) (f : V -> V) (d : t V) : option (t V) :=
  match d with
  | [] => None
  | (k', v) :: r =>
      if String.eqb k k' then Some ((k', f v) :: r)
      else option_map (cons (k', v)) (update k f r)
  end.

End PyDict.

(** ** Console output and the program's monad *)

(** The text written to standard output, one entry per [print] call. *)
Definition IO (A : Type) : Type := M (list string) A.

(** [print(text, end=e)] *)
Definition print_end (text e : string) : IO unit :=
  modify (fun out : list string => (out ++ [(text ++ e)%string])%list).

Definition NL : string := String (ascii_of_nat 10) EmptyString.

(** [print(text)] *)
Definition print (text : string) : IO unit := print_end text NL.

(** [sys.exit(code)] *)
Definition sys_exit {A} (code : Z) : IO A := raise (SystemExit code).

Module Colors.
Definition ESC : string := String (ascii_of_nat 27) EmptyString.
Definition BLUE : string := ESC ++ "[94m".
Definition GREEN : string := ESC ++ "[92m".
Definition RED : string := ESC ++ "[91m".
Definition YELLOW : string := ESC ++ "[93m".
Definition RESET : string := ESC ++ "[0m".
Definition BOLD : string := ESC ++ "[1m".
End Colors.

(** [str(e)] for the exceptions the program prints. *)
Definition str_of_request_failure (k : request_failure) : string :=
  match k with
  | Timeout => "timeout"
  | DNSFailure => "name resolution failed"
  | ConnectionRefused => "connection refused"
  | SSLError => "certificate verify failed"
  | InvalidURL => "invalid URL"
  | OtherRequestError msg => msg
  end.

Definition str_of_exn (e : exn) : string :=
  match e with
  | RequestException k => str_of_request_failure k
  | FileNotFoundError => "No such file or directory"
  | ReadError msg => msg
  | KeyError key => "'" ++ key ++ "'"
  | ZeroDivisionError => "division by zero"
  | OverflowError msg => msg
  | EOFError => "EOF when reading a line"
  | SystemExit code => PyStr.of_int code
  | KeyboardInterrupt => ""
  end.

(** ** [parse_input_file] *)

(** What [open(filename)] and the iteration over the file give: no such
    file, another failure to open it, or the lines read, followed by the
    message of a read error when the iteration breaks off (a decoding
    error, an I/O error). *)
Inductive open_result : Type :=
| NoSuchFile
| OpenFails (msg : string)
| Opened (lines : list string) (broken : option string).

Definition filesystem : Type := string -> open_result.

Abbreviation platforms_t := (PyDict.t (list string)).

(** The variables of the loop: [platforms] and [current_platform]
    ([None] at the start). *)
Definition parse_state : Type := (platforms_t * option string)%type.

(** Truth value of [current_platform]: set, and not the empty string. *)
Definition current_truthy (c : option string) : bool :=
  match c with Some n => PyStr.truthy n | None => false end.

(** [line[1:].strip().replace('```', '').strip()] *)
Definition clean_link (line : string) : string :=
  PyStr.strip (PyStr.replace_backticks (PyStr.strip (PyStr.tail line))).

(** One turn of the loop of lines 60-78. *)
Definition parse_line (st : parse_state) (raw : string) : Res parse_state :=
  let '(platforms, current_platform) := st in
  let line := PyStr.strip raw in
  if negb (PyStr.truthy line) then Ret st
  else if PyStr.contains ":" line && negb (PyStr.startswith line ">") then
    let platform_name := PyStr.strip (PyStr.split_first ":" line) in
    Ret (PyDict.set platform_name [] platforms, Some platform_name)
  else if PyStr.startswith line ">" && current_truthy current_platform then
    let link := clean_link line in
    if PyStr.truthy link then
      match current_platform with
      | Some cur =>
          match PyDict.update cur (fun l => (l ++ [link])%list) platforms with
          | Some platforms' => Ret (platforms', current_platform)
          | None => Raise (KeyError cur)
          end
      | None => Ret st
      end
    else Ret st
  else Ret st.

Fixpoint parse_lines (st : parse_state) (lines : list string) : Res parse_state :=
  match lines with
  | [] => Ret st
  | raw :: rest =>
      match parse_line st raw with
      | Ret st' => parse_lines st' rest
      | Raise e => Raise e
      end
  end.

(** The body of the [try] of [parse_input_file]. *)
Definition read_platforms (fs : filesystem) (filename : string)
  : Res platforms_t :=
  match fs filename with
  | NoSuchFile => Raise FileNotFoundError
  | OpenFails msg => Raise (ReadError msg)
  | Opened lines broken =>
      match parse_lines ([], None) lines with
      | Ret (platforms, _) =>
          match broken with
          | Some msg => Raise (ReadError msg)
          | None => Ret platforms
          end
      | Raise e => Raise e
      end
  end.

Definition msg_file_not_found (filename : string) : string :=
  Colors.RED ++ "Error: File '" ++ filename ++ "' tidak ditemukan!" ++ Colors.RESET.

Definition msg_read_error (e : exn) : string :=
  Colors.RED ++ "Error membaca file: " ++ str_of_exn e ++ Colors.RESET.

Definition parse_input_file (fs : filesystem) (filename : string)
  : IO platforms_t :=
  fun out =>
    match read_platforms fs filename with
    | Ret platforms => (Ret platforms, out)
    | Raise FileNotFoundError =>
        (print (msg_file_not_found filename) ;;; sys_exit 1) out
    | Raise e =>
        if is_Exception e
        then (print (msg_read_error e) ;;; sys_exit 1) out
        else (Raise e, out)
    end.

(** ** [check_platform_links] *)

Inductive link_status : Type := Active | Error.

Record LinkResult : Type := mkLink {
  link_url : string;
  link_status_of : link_status
}.

Record PlatformResult : Type := mkResult {
  platform : string;
  total : Z;
  active : Z;
  error : Z;
  links : list LinkResult
}.

(** The [k]-th element of a list taken out of it. *)
Fixpoint take_out {A} (k : nat) (l : list A) : option (A * list A) :=
  match l, k with
  | [], _ => None
  | x :: r, O => Some (x, r)
  | x :: r, S k' =>
      match take_out k' r with
      | Some (y, r') => Some (y, x :: r')
      | None => None
      end
  end.

(** [as_completed(futures)]: the pending futures are yielded one at a
    time, each exactly once; which one comes next is the scheduler's
    choice, read from [sched] (modulo the number still pending, 0 once
    [sched] is used up). *)
Fixpoint as_completed_from {A} (fuel : nat) (sched : list nat)
    (pending : list A) : list A :=
  match fuel with
  | O => []
  | S fuel' =>
      match take_out (Nat.modulo (hd O sched) (List.length pending)) pending with
      | Some (x, rest) => x :: as_completed_from fuel' (tl sched) rest
      | None => []
      end
  end.

Definition as_completed {A} (sched : list nat) (futures : list A) : list A :=
  as_completed_from (List.length futures) sched futures.

(** The transports the workers see: one per submitted probe. *)
Definition transports : Type := nat -> transport.

(** [executor.submit(check_url, link)] for every link: the future of the
    [i]-th link holds what [check_url] returns or raises. *)
Fixpoint submit_all (nets : transports) (i : nat) (links : list string)
  : list (Res (string * bool)) :=
  match links with
  | [] => []
  | link :: rest =>
      fst (check_url (nets i) link DEFAULT_TIMEOUT) :: submit_all nets (S i) rest
  end.

(** The body of the loop of lines 106-119. *)
Definition collect (results : PlatformResult) (future : Res (string * bool))
  : IO PlatformResult :=
  r <- of_res future ;;
  let '(url, is_active) := r in
  if is_active : bool
  then ret (mkResult (platform results) (total results)
              (active results + 1) (error results)
              (links results ++ [mkLink url Active])%list)
  else ret (mkResult (platform results) (total results)
              (active results) (error results + 1)
              (links results ++ [mkLink url Error])%list).

Fixpoint collect_all (results : PlatformResult)
    (futures : list (Res (string * bool))) : IO PlatformResult :=
  match futures with
  | [] => ret results
  | f :: rest => results' <- collect results f ;; collect_all results' rest
  end.

(** The check mark, by its UTF-8 bytes. *)
Definition CHECK_MARK : string :=
  String (ascii_of_nat 226) (String (ascii_of_nat 156) (String (ascii_of_nat 147) EmptyString)).

Definition check_platform_links (nets : transports) (sched : list nat)
    (platform : string) (links : list string) : IO PlatformResult :=
  let results := mkResult platform (Z.of_nat (List.length links)) 0 0 [] in
  print_end ("  Checking " ++ platform ++ "... ") "" ;;;
  results <- collect_all results (as_completed sched (submit_all nets O links)) ;;
  print (Colors.GREEN ++ CHECK_MARK ++ Colors.RESET) ;;;
  ret results.

(** ** Python [float]: IEEE 754 binary64, after the reference
    implementation [SpecFloat] *)

Module PyFloat.

Definition prec : Z := 53.
Definition emax : Z := 1024.

(** A result that does not fit a [float] is an [OverflowError]. *)
Definition checked (msg : string) (x : spec_float) : Res spec_float :=
  match x with
  | S754_infinity _ => Raise (OverflowError msg)
  | _ => Ret x
  end.

(** [float(n)]: the nearest float, ties to even; it raises when [n] is
    too large. *)
Definition float_of_int (n : Z) : Res spec_float :=
  checked "int too large to convert to float"
    (binary_normalize prec emax n 0 false).

(** [a / b] on two [int]: it raises on a zero divisor; otherwise the
    quotient of the two integers is computed exactly and rounded once, to
    nearest with ties to even, and a quotient too large for a float
    raises. *)
Definition int_truediv (a b : Z) : Res spec_float :=
  if b =? 0 then Raise ZeroDivisionError
  else
    let '(q, e, l) := SFdiv_core_binary prec emax (Z.abs a) 0 (Z.abs b) 0 in
    checked "integer division result too large for a float"
      (binary_round_aux prec emax (xorb (a <? 0) (b <? 0)) q e l).

(** [x * n] for a [float] [x] and an [int] [n]: [n] is converted first. *)
Definition mul_int (x : spec_float) (n : Z) : Res spec_float :=
  match float_of_int n with
  | Ret y => Ret (SFmul prec emax x y)
  | Raise e => Raise e
  end.

(** [n / d] rounded to the nearest integer, ties to even ([d > 0]). *)
Definition div_half_even (n d : Z) : Z :=
  let q := n / d in
  match (2 * (n mod d)) ?= d with
  | Lt => q
  | Gt => q + 1
  | Eq => if Z.even q then q else q + 1
  end.

(** The magnitude [m * 2^e] in tenths, rounded to nearest, ties to
    even: the digits that the [.1f] format prints. *)
Definition tenths (m : positive) (e : Z) : Z :=
  if 0 <=? e then Z.pos m * 2 ^ e * 10
  else div_half_even (Z.pos m * 10) (2 ^ (- e)).

Definition sign_str (s : bool) : string := if s then "-" else "".

(** [format(x, '.1f')] *)
Definition format_1f (x : spec_float) : string :=
  match x with
  | S754_nan => "nan"
  | S754_infinity s => sign_str s ++ "inf"
  | S754_zero s => sign_str s ++ "0.0"
  | S754_finite s m e =>
      let t := tenths m e in
      sign_str s ++ PyStr.of_int (t / 10) ++ "." ++ PyStr.of_int (t mod 10)
  end.

End PyFloat.

(** ** [display_results] *)

Definition RULE : string := PyStr.repeat "=" 70.

(** The three running sums of the loop of lines 136-156. *)
Record totals : Type := mkTotals {
  total_all : Z;
  total_active : Z;
  total_error : Z
}.

(** One turn of that loop: the sums move on and the platform's row is
    printed. *)
Definition display_row (t : totals) (result : PlatformResult) : IO totals :=
  let t' := mkTotals (total_all t + total result)
                     (total_active t + active result)
                     (total_error t + error result) in
  print_end (Colors.BLUE ++ Colors.BOLD ++ PyStr.ljust (platform result) 20
             ++ Colors.RESET ++ " ") "" ;;;
  print_end ("[" ++ PyStr.of_int (total result) ++ "] ") "" ;;;
  print_end (Colors.GREEN ++ "[" ++ PyStr.of_int (active result) ++ "]"
             ++ Colors.RESET ++ " ") "" ;;;
  (if 0 <? error result
   then print (Colors.RED ++ "[" ++ PyStr.of_int (error result) ++ "]"
               ++ Colors.RESET)
   else print "") ;;;
  ret t'.

Fixpoint display_rows (t : totals) (all_results : list PlatformResult)
  : IO totals :=
  match all_results with
  | [] => ret t
  | r :: rest => t' <- display_row t r ;; display_rows t' rest
  end.

(** The argument of the [print] of line 164: a conditional expression
    whose first branch is the whole f-string. *)
Definition success_rate_text (total_active total_all : Z) : Res string :=
  if 0 <? total_all then
    match PyFloat.int_truediv total_active total_all with
    | Ret q =>
        match PyFloat.mul_int q 100 with
        | Ret p => Ret ("Success Rate    : " ++ PyFloat.format_1f p ++ "%")
        | Raise e => Raise e
        end
    | Raise e => Raise e
    end
  else Ret "0%".

Definition display_summary (t : totals) : IO unit :=
  print (NL ++ Colors.BOLD ++ RULE ++ Colors.RESET) ;;;
  print (Colors.BOLD ++ "SUMMARY" ++ Colors.RESET) ;;;
  print ("Total Links     : " ++ PyStr.of_int (total_all t)) ;;;
  print ("Active Links    : " ++ Colors.GREEN ++ PyStr.of_int (total_active t)
         ++ Colors.RESET) ;;;
  print ("Error Links     : " ++ Colors.RED ++ PyStr.of_int (total_error t)
         ++ Colors.RESET) ;;;
  text <- of_res (success_rate_text (total_active t) (total_all t)) ;;
  print text ;;;
  print (Colors.BOLD ++ RULE ++ Colors.RESET ++ NL).

Definition display_results (all_results : list PlatformResult) : IO unit :=
  print (NL ++ Colors.BOLD ++ RULE ++ Colors.RESET) ;;;
  print (Colors.BOLD ++ "HASIL PENGECEKAN DOMAIN SEO" ++ Colors.RESET) ;;;
  print (Colors.BOLD ++ RULE ++ Colors.RESET ++ NL) ;;;
  t <- display_rows (mkTotals 0 0 0) all_results ;;
  display_summary t.

(** ** [display_detailed_results] *)

(** The cross mark, by its UTF-8 bytes. *)
Definition CROSS_MARK : string :=
  String (ascii_of_nat 226) (String (ascii_of_nat 156) (String (ascii_of_nat 151) EmptyString)).

Definition display_link (i : Z) (l : LinkResult) : IO unit :=
  let status_symbol :=
    match link_status_of l with
    | Active => Colors.GREEN ++ CHECK_MARK ++ Colors.RESET
    | Error => Colors.RED ++ CROSS_MARK ++ Colors.RESET
    end in
  let status_text :=
    match link_status_of l with
    | Active => Colors.GREEN ++ "ACTIVE" ++ Colors.RESET
    | Error => Colors.RED ++ "ERROR" ++ Colors.RESET
    end in
  print ("  " ++ PyStr.of_int i ++ ". " ++ status_symbol ++ " [" ++ status_text
         ++ "] " ++ link_url l).

Fixpoint display_links (i : Z) (ls : list LinkResult) : IO unit :=
  match ls with
  | [] => ret tt
  | l :: rest => display_link i l ;;; display_links (i + 1) rest
  end.

Fixpoint display_detailed_rows (all_results : list PlatformResult) : IO unit :=
  match all_results with
  | [] => ret tt
  | result :: rest =>
      print (NL ++ Colors.BLUE ++ Colors.BOLD ++ platform result ++ " ("
             ++ PyStr.of_int (active result) ++ "/"
             ++ PyStr.of_int (total result) ++ " active)" ++ Colors.RESET) ;;;
      print (PyStr.repeat "-" 70) ;;;
      display_links 1 (links result) ;;;
      display_detailed_rows rest
  end.

Definition display_detailed_results (all_results : list PlatformResult)
  : IO unit :=
  print (NL ++ Colors.BOLD ++ "DETAIL PENGECEKAN PER LINK" ++ Colors.RESET ++ NL) ;;;
  display_detailed_rows all_results.

(** ** [main] and the top level *)

(** What [input()] gives: a line, an interrupt, or end of input. *)
Inductive stdin_result : Type :=
| Line (text : string)
| Interrupt
| EndOfInput.

(** Everything the run depends on.  An interrupt (Ctrl-C) is part of it
    at the prompt only, where [main] has its own handler: the runs
    described by [run] are those that are not interrupted before the
    prompt.  What the [__main__] block makes of an interrupt that escapes
    [main] at any other point is described by [top_level_handlers]. *)
Record environment : Type := mkEnv {
  argv : list string;
  fs : filesystem;
  (** the transports of the probes of the [i]-th platform checked *)
  nets_of : nat -> transports;
  (** the completion order of the probes of the [i]-th platform *)
  sched_of : nat -> list nat;
  stdin : stdin_result
}.

(** [input(prompt)] *)
Definition input (env : environment) (prompt : string) : IO string :=
  print_end prompt "" ;;;
  match stdin env with
  | Line text => ret text
  | Interrupt => raise KeyboardInterrupt
  | EndOfInput => raise EOFError
  end.

(** [try: body except KeyboardInterrupt: handler] *)
Definition try_except_KeyboardInterrupt {S A} (body : M S A) (handler : M S A)
  : M S A :=
  fun s =>
    match body s with
    | (Raise KeyboardInterrupt, s') => handler s'
    | r => r
    end.

(** The loop of lines 215-218; [time.sleep] has no effect on the result. *)
Fixpoint check_all (env : environment) (i : nat)
    (items : list (string * list string)) (all_results : list PlatformResult)
  : IO (list PlatformResult) :=
  match items with
  | [] => ret all_results
  | (platform, links) :: rest =>
      result <- check_platform_links (nets_of env i) (sched_of env i)
                  platform links ;;
      check_all env (S i) rest (all_results ++ [result])%list
  end.

(** The folder glyph, by its UTF-8 bytes. *)
Definition FOLDER : string :=
  String (ascii_of_nat 240) (String (ascii_of_nat 159)
    (String (ascii_of_nat 147) (String (ascii_of_nat 129) EmptyString))).

Definition msg_no_platform : string :=
  Colors.RED ++ "Tidak ada data platform ditemukan!" ++ Colors.RESET.

Definition print_usage : IO unit :=
  print (Colors.YELLOW ++ "Penggunaan: python seo_checker.py <file_input.txt>"
         ++ Colors.RESET) ;;;
  print (NL ++ "Contoh file input:") ;;;
  print "  Youtube : 2" ;;;
  print "  > https://youtube.com/watch?v=..." ;;;
  print "  > https://youtube.com/watch?v=..." ;;;
  print "  Medium : 2" ;;;
  print ("  > unavailable" ++ NL).

Definition main (env : environment) : IO unit :=
  print (NL ++ Colors.BOLD ++ Colors.BLUE ++ "SEO DOMAIN CHECKER" ++ Colors.RESET) ;;;
  print (Colors.BOLD ++ RULE ++ Colors.RESET ++ NL) ;;;
  match argv env with
  | _ :: filename :: _ =>
      print (FOLDER ++ " Membaca file: " ++ Colors.BOLD ++ filename
             ++ Colors.RESET) ;;;
      platforms_data <- parse_input_file (fs env) filename ;;
      match platforms_data with
      | [] => print msg_no_platform ;;; sys_exit 1
      | _ =>
          print (CHECK_MARK ++ " Ditemukan "
                 ++ PyStr.of_int (Z.of_nat (List.length platforms_data))
                 ++ " platform" ++ NL) ;;;
          print (Colors.BOLD ++ "Memulai pengecekan..." ++ Colors.RESET ++ NL) ;;;
          all_results <- check_all env O platforms_data [] ;;
          display_results all_results ;;;
          try_except_KeyboardInterrupt
            (show_detail <- input env (NL ++ Colors.YELLOW
                              ++ "Tampilkan detail per link? (y/n): "
                              ++ Colors.RESET) ;;
             if String.eqb (PyStr.lower show_detail) "y"
             then display_detailed_results all_results
             else ret tt)
            (print (NL ++ NL ++ Colors.YELLOW ++ "Program dihentikan."
                    ++ Colors.RESET) ;;;
             sys_exit 0) ;;;
          print (NL ++ Colors.GREEN ++ CHECK_MARK ++ " Pengecekan selesai!"
                 ++ Colors.RESET ++ NL)
      end
  | _ => print_usage ;;; sys_exit 1
  end.

(** The [if __name__ == "__main__"] block. *)
Definition top_level (env : environment) : IO unit :=
  fun out =>
    match main env out with
    | (Raise KeyboardInterrupt, out') =>
        (print (NL ++ NL ++ Colors.YELLOW ++ "Program dihentikan oleh user."
                ++ Colors.RESET) ;;;
         sys_exit 0) out'
    | (Raise e, out') =>
        if is_Exception e
        then (print (NL ++ Colors.RED ++ "Error: " ++ str_of_exn e
                     ++ Colors.RESET) ;;;
              sys_exit 1) out'
        else (Raise e, out')
    | r => r
    end.

(** The exit status of the process and what it wrote: 0 on a normal end,
    the code of a [SystemExit], 1 for any other exception that escapes. *)
Definition run (env : environment) : Z * list string :=
  match top_level env [] with
  | (Ret _, out) => (0, out)
  | (Raise (SystemExit code), out) => (code, out)
  | (Raise _, out) => (1, out)
  end.

(** ** Definitions used to state the properties *)

(** The url that is probed: [https://] is put in front of a url without
    scheme. *)
Definition probed_url (url : string) : string :=
  if has_scheme url then url else "https://" ++ url.

Definition head_request (u : string) (timeout : Z) : request :=
  mkRequest HEAD u timeout true USER_AGENT.

(** The same request with another method. *)
Definition with_method (m : http_method) (r : request) : request :=
  mkRequest m (req_url r) (req_timeout r) (req_allow_redirects r)
    (req_user_agent r).

(** The final response of a probe whose HEAD request is [h], as the
    specification words it: the GET response if the fallback ran, the HEAD
    response otherwise; [None] when the request that should give it
    fails. *)
Definition final_response (net : transport) (h : request) : option Z :=
  match net h with
  | Response c =>
      if 400 <=? c then
        match net (with_method GET h) with
        | Response c' => Some c'
        | Fails _ => None
        end
      else Some c
  | Fails _ => None
  end.

(** No whitespace at the front. *)
Definition no_lead (s : string) : Prop :=
  match s with
  | EmptyString => True
  | String c _ => PyStr.isspace c = false
  end.

(** A pattern made of characters that [lower] leaves alone and whose
    upper-case forms [lower] brings back. *)
Fixpoint lower_stable (pat : string) : bool :=
  match pat with
  | EmptyString => true
  | String d p =>
      Ascii.eqb (PyStr.lower_char d) d
      && Ascii.eqb (PyStr.lower_char (PyStr.upper_ascii d)) d
      && lower_stable p
  end.

(** A server that rejects HEAD with 404 and answers GET with 200. *)
Definition net_head404_get200 : transport :=
  fun r => match req_method r with HEAD => Response 404 | GET => Response 200 end.

(** A platform header: a line with a colon that does not start with [>]
    (both after trimming). *)
Definition is_header (raw : string) : bool :=
  PyStr.contains ":" (PyStr.strip raw)
  && negb (PyStr.startswith (PyStr.strip raw) ">").

(** The platform name a header gives. *)
Definition header_name (raw : string) : string :=
  PyStr.strip (PyStr.split_first ":" (PyStr.strip raw)).

(** A line starting with [>] (after trimming). *)
Definition is_link_line (raw : string) : bool :=
  PyStr.startswith (PyStr.strip raw) ">".

(** The url a link line carries. *)
Definition link_of_line (raw : string) : string := clean_link (PyStr.strip raw).

(** A link line that carries a non-empty url. *)
Definition is_kept_link (raw : string) : bool :=
  is_link_line raw && PyStr.truthy (link_of_line raw).

(** The lines before the next header. *)
Fixpoint until_header (lines : list string) : list string :=
  match lines with
  | [] => []
  | raw :: rest => if is_header raw then [] else raw :: until_header rest
  end.

(** The current platform, when set, is a key of the dictionary. *)
Definition state_ok (st : parse_state) : Prop :=
  match snd st with
  | Some cur => PyDict.get cur (fst st) <> None
  | None => True
  end.

(** Every stored url is non-empty and trimmed. *)
Definition urls_ok (d : platforms_t) : Prop :=
  forall n l u, In (n, l) d -> In u l ->
    PyStr.truthy u = true /\ PyStr.strip u = u.

(** C7 as the specification states it: the list of a platform is as long
    as the number of lines starting with [>] between its header [h] and
    the next header. *)
Definition url_count_as_stated (pre : list string) (h : string)
    (following : list string) : Prop :=
  is_header h = true ->
  exists platforms urls,
    parse_input_file (fun _ => Opened (pre ++ h :: following) None) "input.txt" []
    = (Ret platforms, [])
    /\ PyDict.get (header_name h) platforms = Some urls
    /\ List.length urls
       = List.length (filter is_link_line (until_header following)).

(** The link record that the loop stores for a returned pair. *)
Definition link_of_pair (p : string * bool) : LinkResult :=
  mkLink (fst p) (if snd p then Active else Error).

(** C5 as the specification states it: the url of every link record
    starts with [http://] or [https://]. *)
Definition urls_prefixed_as_stated (nets : transports) (sched : list nat)
    (name : string) (urls : list string) : Prop :=
  forall r out', check_platform_links nets sched name urls [] = (Ret r, out') ->
    forall l, In l (links r) -> has_scheme (link_url l) = true.

(** The inputs the program gives up on: a file that is missing or cannot
    be read, or one that parses to no platform at all. *)
Definition is_fatal_input (o : open_result) : bool :=
  match o with
  | NoSuchFile | OpenFails _ | Opened _ (Some _) => true
  | Opened lines None =>
      match parse_lines ([], None) lines with
      | Ret ([], _) => true
      | _ => false
      end
  end.

(** The message printed for each of them. *)
Definition fatal_message (filename : string) (o : open_result) : string :=
  match o with
  | NoSuchFile => msg_file_not_found filename
  | OpenFails msg | Opened _ (Some msg) => msg_read_error (ReadError msg)
  | Opened _ None => msg_no_platform
  end.

(** What [main] prints before it reads the file. *)
Definition preamble (filename : string) : list string :=
  [(NL ++ Colors.BOLD ++ Colors.BLUE ++ "SEO DOMAIN CHECKER" ++ Colors.RESET) ++ NL;
   (Colors.BOLD ++ RULE ++ Colors.RESET ++ NL) ++ NL;
   (FOLDER ++ " Membaca file: " ++ Colors.BOLD ++ filename ++ Colors.RESET) ++ NL]%string.

(** A run on a file that does not exist. *)
Definition env_missing_file : environment :=
  mkEnv ["hsc.py"; "links.txt"] (fun _ => NoSuchFile)
    (fun _ _ _ => Response 200) (fun _ => []) (Line "n").

(** A decimal digit, a string of decimal digits. *)
Definition is_digit (c : ascii) : bool :=
  let n := N_of_ascii c in ((48 <=? n) && (n <=? 57))%N.

Fixpoint all_digits (s : string) : bool :=
  match s with
  | EmptyString => true
  | String c r => is_digit c && all_digits r
  end.

(** The number that a string of decimal digits writes, read from the
    left after the digits that make [acc]. *)
Fixpoint digits_value (acc : Z) (s : string) : Z :=
  match s with
  | EmptyString => acc
  | String c r => digits_value (10 * acc + (Z.of_N (N_of_ascii c) - 48)) r
  end.

(** A non-negative float whose value is [N / 2^k]. *)
Definition float_is (x : spec_float) (N k : Z) : Prop :=
  match x with
  | S754_zero s => s = false /\ N = 0
  | S754_finite s m e => s = false /\ e = - k /\ Z.pos m = N
  | _ => False
  end.

(** [T] is the integer nearest to [n / d], the even one of the two when
    [n / d] lies half-way ([d > 0]). *)
Definition nearest_even (T n d : Z) : Prop :=
  2 * Z.abs (T * d - n) <= d
  /\ (2 * Z.abs (T * d - n) = d -> Z.even T = true).

(** The result of a rounding that yields [M * 2^E], up to one more
    halving of an even mantissa. *)
Definition rounds_to (s : bool) (M E : Z) (x : spec_float) : Prop :=
  match x with
  | S754_zero s' => s' = s /\ M = 0
  | S754_finite s' m e => s' = s /\ E <= e <= E + 1 /\ Z.pos m * 2 ^ (e - E) = M
  | _ => False
  end.

(** The running sums after one more platform, and after all of them. *)
Definition add_result (t : totals) (r : PlatformResult) : totals :=
  mkTotals (total_all t + total r) (total_active t + active r)
    (total_error t + error r).

Definition sum_results (all_results : list PlatformResult) : totals :=
  fold_left add_result all_results (mkTotals 0 0 0).

(** The lines of the summary before and after the success rate. *)
Definition summary_head (t : totals) : list string :=
  [(NL ++ Colors.BOLD ++ RULE ++ Colors.RESET) ++ NL;
   (Colors.BOLD ++ "SUMMARY" ++ Colors.RESET) ++ NL;
   ("Total Links     : " ++ PyStr.of_int (total_all t)) ++ NL;
   ("Active Links    : " ++ Colors.GREEN ++ PyStr.of_int (total_active t)
      ++ Colors.RESET) ++ NL;
   ("Error Links     : " ++ Colors.RED ++ PyStr.of_int (total_error t)
      ++ Colors.RESET) ++ NL]%string.

Definition summary_foot : string :=
  ((Colors.BOLD ++ RULE ++ Colors.RESET ++ NL) ++ NL)%string.

(** ** Definitions used to state further properties *)

(** ** More on the parser *)

Definition add_key (ks : list string) (k : string) : list string :=
  if existsb (String.eqb k) ks then ks else (ks ++ [k])%list.

Definition first_occurrences (names : list string) : list string :=
  fold_left add_key names [].

Definition is_relevant (raw : string) : bool := is_header raw || is_kept_link raw.

Definition no_links_without_name (d : PyDict.t (list string)) : Prop :=
  PyDict.get "" d = None \/ PyDict.get "" d = Some [].

(** A string without any backtick. *)
Fixpoint no_backtick (s : string) : bool :=
  match s with
  | EmptyString => true
  | String c r => negb (Ascii.eqb c "`") && no_backtick r
  end.

(** The pair that [check_url] returns for a url, with the default
    timeout ([check_url] never raises; the second branch is there for the
    match to be total). *)
Definition probe_pair (net : transport) (url : string) : string * bool :=
  match fst (check_url net url DEFAULT_TIMEOUT) with
  | Ret p => p
  | Raise _ => (url, false)
  end.

(** The pairs of the urls of one platform, in the order given; the
    [i]-th probe runs against the [i]-th transport. *)
Fixpoint probe_pairs (nets : transports) (i : nat) (urls : list string)
  : list (string * bool) :=
  match urls with
  | [] => []
  | url :: rest => probe_pair (nets i) url :: probe_pairs nets (S i) rest
  end.

(** How many of the pairs are active, how many are not. *)
Definition count_active (pairs : list (string * bool)) : Z :=
  Z.of_nat (List.length (filter (fun p => snd p) pairs)).

Definition count_error (pairs : list (string * bool)) : Z :=
  Z.of_nat (List.length (filter (fun p => negb (snd p)) pairs)).

(** The record of an active link. *)
Definition is_active_link (l : LinkResult) : bool :=
  match link_status_of l with Active => true | Error => false end.

(** The result of one platform, read off the pairs in completion order. *)
Definition platform_result (nets : transports) (sched : list nat)
    (name : string) (urls : list string) : PlatformResult :=
  let pairs := as_completed sched (probe_pairs nets O urls) in
  mkResult name (Z.of_nat (List.length urls)) (count_active pairs)
    (count_error pairs) (map link_of_pair pairs).

(** The two progress chunks written for one platform. *)
Definition checking_lines (name : string) : list string :=
  [(("  Checking " ++ name ++ "... ") ++ "")%string;
   ((Colors.GREEN ++ CHECK_MARK ++ Colors.RESET) ++ NL)%string].

(** The results of the loop of [main] over the mapping: one result per
    platform, the [i]-th checked against the [i]-th transports and
    schedule. *)
Fixpoint results_of (env : environment) (i : nat)
    (items : list (string * list string)) : list PlatformResult :=
  match items with
  | [] => []
  | (name, urls) :: rest =>
      platform_result (nets_of env i) (sched_of env i) name urls
      :: results_of env (S i) rest
  end.

Definition all_checking_lines (items : list (string * list string))
  : list string :=
  List.concat (map (fun item => checking_lines (fst item)) items).

(** The line of one link in the detailed report. *)
Definition link_line (i : Z) (l : LinkResult) : string :=
  ("  " ++ PyStr.of_int i ++ ". "
   ++ match link_status_of l with
      | Active => Colors.GREEN ++ CHECK_MARK ++ Colors.RESET
      | Error => Colors.RED ++ CROSS_MARK ++ Colors.RESET
      end
   ++ " ["
   ++ match link_status_of l with
      | Active => Colors.GREEN ++ "ACTIVE" ++ Colors.RESET
      | Error => Colors.RED ++ "ERROR" ++ Colors.RESET
      end
   ++ "] " ++ link_url l) ++ NL.

Fixpoint links_lines (i : Z) (ls : list LinkResult) : list string :=
  match ls with
  | [] => []
  | l :: rest => link_line i l :: links_lines (i + 1) rest
  end.

(** What the detailed report writes for one platform, and in all. *)
Definition platform_detail_lines (result : PlatformResult) : list string :=
  ((NL ++ Colors.BLUE ++ Colors.BOLD ++ platform result ++ " ("
    ++ PyStr.of_int (active result) ++ "/" ++ PyStr.of_int (total result)
    ++ " active)" ++ Colors.RESET) ++ NL)%string
  :: (PyStr.repeat "-" 70 ++ NL)%string
  :: links_lines 1 (links result).

Definition detail_lines (all_results : list PlatformResult) : list string :=
  ((NL ++ Colors.BOLD ++ "DETAIL PENGECEKAN PER LINK" ++ Colors.RESET ++ NL) ++ NL)%string
  :: List.concat (map platform_detail_lines all_results).

(** The two lines of the banner. *)
Definition banner : list string :=
  [(NL ++ Colors.BOLD ++ Colors.BLUE ++ "SEO DOMAIN CHECKER" ++ Colors.RESET) ++ NL;
   (Colors.BOLD ++ RULE ++ Colors.RESET ++ NL) ++ NL]%string.

(** The usage text. *)
Definition usage_lines : list string :=
  [(Colors.YELLOW ++ "Penggunaan: python seo_checker.py <file_input.txt>"
      ++ Colors.RESET) ++ NL;
   (NL ++ "Contoh file input:") ++ NL;
   "  Youtube : 2" ++ NL;
   "  > https://youtube.com/watch?v=..." ++ NL;
   "  > https://youtube.com/watch?v=..." ++ NL;
   "  Medium : 2" ++ NL;
   ("  > unavailable" ++ NL) ++ NL]%string.

(** The text of the prompt, the closing line, the notice of an interrupt
    at the prompt and the line of the top-level error handler. *)
Definition PROMPT : string :=
  ((NL ++ Colors.YELLOW ++ "Tampilkan detail per link? (y/n): " ++ Colors.RESET)
   ++ "")%string.

Definition msg_done : string :=
  ((NL ++ Colors.GREEN ++ CHECK_MARK ++ " Pengecekan selesai!" ++ Colors.RESET
      ++ NL) ++ NL)%string.

Definition msg_stopped : string :=
  ((NL ++ NL ++ Colors.YELLOW ++ "Program dihentikan." ++ Colors.RESET) ++ NL)%string.

Definition msg_error (e : exn) : string :=
  ((NL ++ Colors.RED ++ "Error: " ++ str_of_exn e ++ Colors.RESET) ++ NL)%string.

(** What [main] writes once the file is parsed, before the checks. *)
Definition start_lines (platforms_data : PyDict.t (list string)) : list string :=
  [(CHECK_MARK ++ " Ditemukan "
      ++ PyStr.of_int (Z.of_nat (List.length platforms_data))
      ++ " platform" ++ NL) ++ NL;
   (Colors.BOLD ++ "Memulai pengecekan..." ++ Colors.RESET ++ NL) ++ NL]%string.




(** The hypotheses of a run that gets to the prompt. *)
Definition reaches_prompt (env : environment) (filename : string)
    (platforms : PyDict.t (list string)) : Prop :=
  (exists prog more, argv env = prog :: filename :: more)
  /\ (exists lines cur,
        fs env filename = Opened lines None
        /\ parse_lines ([], None) lines = Ret (platforms, cur))
  /\ platforms <> [].

(** ** Facts on the string methods *)

Module PyStrFacts.
Import PyStr.

Lemma append_assoc (a b c : string) : (a ++ b) ++ c = a ++ (b ++ c).
Proof. induction a as [|x a IH]; simpl; [reflexivity | rewrite IH; reflexivity]. Qed.

Lemma truthy_true_iff (s : string) : truthy s = true <-> s <> "".
Proof. destruct s; simpl; split; congruence. Qed.

Lemma lstrip_no_lead (s : string) : no_lead (lstrip s).
Proof.
  induction s as [|c r IH]; simpl; [exact I|].
  destruct (isspace c) eqn:E; [exact IH | simpl; exact E].
Qed.

Lemma lstrip_fixed (s : string) : no_lead s -> lstrip s = s.
Proof. destruct s as [|c r]; simpl; [reflexivity|]. intros ->. reflexivity. Qed.

Lemma rstrip_no_lead (s : string) : no_lead s -> no_lead (rstrip s).
Proof.
  destruct s as [|c r]; simpl; [exact (fun H => H)|]. intros E.
  destruct (rstrip r); [rewrite E|]; simpl; exact E.
Qed.

Lemma rstrip_idem (s : string) : rstrip (rstrip s) = rstrip s.
Proof.
  induction s as [|c r IH]; simpl; [reflexivity|].
  destruct (rstrip r) as [|d r'] eqn:E.
  - destruct (isspace c) eqn:Ec; simpl; [reflexivity | rewrite Ec; reflexivity].
  - simpl in *. rewrite IH. reflexivity.
Qed.

Lemma strip_idem (s : string) : strip (strip s) = strip s.
Proof.
  unfold strip.
  rewrite (lstrip_fixed (rstrip (lstrip s))).
  - apply rstrip_idem.
  - apply rstrip_no_lead, lstrip_no_lead.
Qed.

Lemma any_case_lower (pat s : string) :
  lower_stable pat = true -> any_case_of pat s = true -> lower s = pat.
Proof.
  revert s. induction pat as [|d p IH]; intros [|c r]; simpl; try discriminate.
  - reflexivity.
  - intros Hst Hany.
    apply andb_true_iff in Hst as [Hst Hp].
    apply andb_true_iff in Hst as [Hd Hu].
    apply andb_true_iff in Hany as [Hc Hr].
    apply Ascii.eqb_eq in Hd, Hu.
    rewrite (IH r Hp Hr). f_equal.
    apply orb_true_iff in Hc as [Hc | Hc]; apply Ascii.eqb_eq in Hc; subst c;
      assumption.
Qed.

End PyStrFacts.

(** ** Facts on [check_url] *)

(** Every run of [check_url], case by case. *)
Lemma check_url_cases (net : transport) (url : string) (timeout : Z) :
  check_url net url timeout =
    if skipped url then (Ret (url, false), [])
    else
      let u := probed_url url in
      let h := head_request u timeout in
      let g := with_method GET h in
      match net h with
      | Fails _ => (Ret (u, false), [h])
      | Response c =>
          if 400 <=? c then
            match net g with
            | Fails _ => (Ret (u, false), [h; g])
            | Response c' => (Ret (u, c' <? 400), [h; g])
            end
          else (Ret (u, c <? 400), [h])
      end.
Proof.
  unfold check_url, check_url_body, bind, get_url, try_except_Exception,
    set_url, modify, ret, requests_head, requests_get, requests_call.
  cbv beta iota zeta delta [var_url sent].
  destruct (skipped url); [reflexivity|].
  unfold probed_url, head_request, with_method.
  cbv beta iota zeta delta [req_url req_timeout req_allow_redirects
    req_user_agent].
  destruct (has_scheme url); cbv beta iota zeta delta [negb var_url sent app];
    (destruct (net _) as [c|k]; [|reflexivity]);
    (destruct (400 <=? c); [|reflexivity]);
    cbv beta iota zeta delta [var_url sent app]; destruct (net _); reflexivity.
Qed.

(** [check_url] returns: nothing escapes it. *)
Lemma check_url_returns (net : transport) (url : string) (timeout : Z) :
  exists u b, fst (check_url net url timeout) = Ret (u, b).
Proof.
  rewrite check_url_cases.
  destruct (skipped url); [eexists _, _; reflexivity|].
  cbv zeta.
  destruct (net _) as [c|k]; [|eexists _, _; reflexivity].
  destruct (400 <=? c); [|eexists _, _; reflexivity].
  destruct (net _); eexists _, _; reflexivity.
Qed.

(** C2: for a url that the guard lets through, the probe sends a HEAD
    request first; it sends a GET request with the same parameters exactly
    when the HEAD response has a status code of 400 or more; the url is
    Active exactly when the final response (the GET response if the
    fallback ran, the HEAD response otherwise) has a status code below 400.
    A HEAD response of 404 followed by a GET response of 200 gives
    Active. *)
Theorem check_url_head_then_get_fallback
    (net : transport) (url : string) (timeout : Z) :
  skipped url = false ->
  let h := head_request (probed_url url) timeout in
  let g := with_method GET h in
  let result := check_url net url timeout in
  (exists rest, snd result = h :: rest /\ (rest = [] \/ rest = [g]))
  /\ (In g (snd result) <-> exists c, net h = Response c /\ 400 <= c)
  /\ (exists b, fst result = Ret (probed_url url, b)
        /\ (b = true <-> exists c, final_response net h = Some c /\ c < 400))
  /\ (net h = Response 404 -> net g = Response 200 ->
      fst result = Ret (probed_url url, true)).
Proof.
  intros Hsk h g result.
  assert (Hgh : g <> h) by (unfold g, h, with_method, head_request; cbn; congruence).
  unfold result. rewrite check_url_cases, Hsk. cbv zeta. fold h. fold g.
  unfold final_response. fold g.
  destruct (net h) as [c|k] eqn:Eh.
  - destruct (400 <=? c) eqn:Ec.
    + apply Z.leb_le in Ec.
      destruct (net g) as [c'|k'] eqn:Eg; cbn [fst snd].
      * repeat split.
        -- exists [g]. auto.
        -- intros _. exists c. auto.
        -- intros _. cbn. auto.
        -- exists (c' <? 400). split; [reflexivity|]. split.
           ++ intros H. apply Z.ltb_lt in H. exists c'. auto.
           ++ intros (c0 & [= <-] & H). apply Z.ltb_lt. exact H.
        -- intros _ [= ->]. reflexivity.
      * repeat split.
        -- exists [g]. auto.
        -- intros _. exists c. auto.
        -- intros _. cbn. auto.
        -- exists false. split; [reflexivity|]. split; [discriminate|].
           intros (c0 & H & _). discriminate.
        -- intros _ [=].
    + apply Z.leb_gt in Ec. cbn [fst snd]. repeat split.
      * exists []. auto.
      * intros [H | []]. congruence.
      * intros (c0 & [= <-] & H). lia.
      * exists (c <? 400). split; [reflexivity|]. split.
        -- intros H. apply Z.ltb_lt in H. exists c. auto.
        -- intros (c0 & [= <-] & H). apply Z.ltb_lt. exact H.
      * intros [= ->]. lia.
  - cbn [fst snd]. repeat split.
    + exists []. auto.
    + intros [H | []]. congruence.
    + intros (c0 & [=] & _).
    + exists false. split; [reflexivity|]. split; [discriminate|].
      intros (c0 & [=] & _).
    + intros [=].
Qed.

Lemma check_url_head_then_get_fallback_witness :
  skipped "example.com" = false
  /\ fst (check_url net_head404_get200 "example.com" 10)
     = Ret ("https://example.com", true).
Proof.
  split; [reflexivity|].
  exact (proj2 (proj2 (proj2
    (check_url_head_then_get_fallback net_head404_get200 "example.com" 10
       eq_refl))) eq_refl eq_refl).
Defined.

Lemma skipped_of_sentinel (url : string) :
  PyStr.strip url = ""
  \/ PyStr.any_case_of "unavailable" (PyStr.strip url) = true ->
  skipped url = true.
Proof.
  unfold skipped. intros [H | H].
  - rewrite H. reflexivity.
  - rewrite (PyStrFacts.any_case_lower "unavailable" _ eq_refl H). reflexivity.
Qed.

(** C3: a string that, once trimmed, is empty or is "unavailable" in any
    letter case is classified Error, returned as it is, and no request is
    sent for it. *)
Theorem check_url_sentinel_no_request
    (net : transport) (url : string) (timeout : Z) :
  PyStr.strip url = ""
  \/ PyStr.any_case_of "unavailable" (PyStr.strip url) = true ->
  check_url net url timeout = (Ret (url, false), []).
Proof.
  intros H. rewrite check_url_cases, (skipped_of_sentinel url H). reflexivity.
Qed.

Lemma check_url_sentinel_no_request_witness :
  check_url (fun _ => Response 200) "  UnAvailable " 10
  = (Ret ("  UnAvailable ", false), []).
Proof.
  apply (check_url_sentinel_no_request (fun _ => Response 200) "  UnAvailable " 10).
  right. reflexivity.
Defined.

(** C4: a url that the guard lets through and that starts with neither
    [http://] nor [https://] is probed with [https://] in front, and the
    url of the result is that prefixed form whatever the outcome, a
    failing request included. *)
Theorem check_url_prepends_https
    (net : transport) (url : string) (timeout : Z) :
  skipped url = false ->
  has_scheme url = false ->
  exists b rest,
    check_url net url timeout
    = (Ret ("https://" ++ url, b),
       head_request ("https://" ++ url) timeout :: rest)
    /\ Forall (fun r => req_url r = "https://" ++ url) rest.
Proof.
  intros Hsk Hsc. rewrite check_url_cases, Hsk. unfold probed_url.
  rewrite Hsc. cbv zeta.
  destruct (net _) as [c|k].
  - destruct (400 <=? c).
    + destruct (net _); eexists _, _; (split; [reflexivity|]);
        repeat constructor.
    + eexists _, _; split; [reflexivity | constructor].
  - eexists _, _; split; [reflexivity | constructor].
Qed.

Lemma check_url_prepends_https_witness :
  exists b rest,
    check_url (fun _ => Fails Timeout) "example.com/a" 10
    = (Ret ("https://example.com/a", b),
       head_request "https://example.com/a" 10 :: rest)
    /\ Forall (fun r => req_url r = "https://example.com/a") rest.
Proof.
  apply (check_url_prepends_https (fun _ => Fails Timeout) "example.com/a" 10);
    reflexivity.
Defined.

(** C6: [check_url] never raises: whatever the url and whatever the
    transport does, it returns a pair, and when one of the requests it
    sent failed the pair says Error. *)
Theorem check_url_never_raises
    (net : transport) (url : string) (timeout : Z) :
  exists u b,
    fst (check_url net url timeout) = Ret (u, b)
    /\ ((exists r k, In r (snd (check_url net url timeout)) /\ net r = Fails k)
        -> b = false).
Proof.
  rewrite check_url_cases.
  destruct (skipped url).
  - eexists _, _. split; [reflexivity | reflexivity].
  - cbv zeta.
    destruct (net (head_request _ _)) as [c|k] eqn:Eh.
    + destruct (400 <=? c).
      * destruct (net (with_method _ _)) as [c'|k'] eqn:Eg;
          eexists _, _; (split; [reflexivity|]); cbn [snd].
        -- intros (r & k & [<- | [<- | []]] & Hr); congruence.
        -- reflexivity.
      * eexists _, _. split; [reflexivity|]. cbn [snd].
        intros (r & k & [<- | []] & Hr). congruence.
    + eexists _, _. split; reflexivity.
Qed.

(** ** Facts on the dictionary *)

Module PyDictFacts.
Import PyDict.

Section Facts.
Context {V : Type}.
Implicit Types (d : t V) (k : string) (v : V).

Lemma get_set_eq d k v : get k (set k v d) = Some v.
Proof.
  induction d as [|[k' v'] r IH]; simpl.
  - rewrite String.eqb_refl. reflexivity.
  - destruct (String.eqb k k') eqn:E; simpl.
    + rewrite String.eqb_refl. reflexivity.
    + rewrite E. exact IH.
Qed.

Lemma get_set_ne d k k' v : k <> k' -> get k' (set k v d) = get k' d.
Proof.
  intros Hne. induction d as [|[k0 v0] r IH]; simpl.
  - apply not_eq_sym, String.eqb_neq in Hne. rewrite Hne. reflexivity.
  - destruct (String.eqb k k0) eqn:E; simpl.
    + apply String.eqb_eq in E. subst k0.
      apply not_eq_sym, String.eqb_neq in Hne. rewrite Hne. reflexivity.
    + rewrite IH. reflexivity.
Qed.

Lemma update_present d k (f : V -> V) v :
  get k d = Some v ->
  exists d', update k f d = Some d'
             /\ get k d' = Some (f v)
             /\ forall k', k' <> k -> get k' d' = get k' d.
Proof.
  induction d as [|[k0 v0] r IH]; simpl; [discriminate|].
  destruct (String.eqb k k0) eqn:E.
  - intros [= ->]. apply String.eqb_eq in E. subst k0.
    eexists. split; [reflexivity|]. simpl. rewrite String.eqb_refl.
    split; [reflexivity|]. intros k' Hne.
    apply String.eqb_neq in Hne. rewrite Hne. reflexivity.
  - intros H. destruct (IH H) as (d' & Hu & Hg & Ho). rewrite Hu. simpl.
    eexists. split; [reflexivity|]. simpl. rewrite E.
    split; [exact Hg|]. intros k' Hne.
    destruct (String.eqb k' k0); [reflexivity | apply Ho, Hne].
Qed.

Lemma in_set d k v n l :
  In (n, l) (set k v d) -> l = v \/ In (n, l) d.
Proof.
  induction d as [|[k0 v0] r IH]; simpl.
  - intros [[= _ <-] | []]. left. reflexivity.
  - destruct (String.eqb k k0); simpl.
    + intros [[= _ <-] | H]; auto.
    + intros [H | H]; auto. destruct (IH H); auto.
Qed.

Lemma in_update d d' k (f : V -> V) n l :
  update k f d = Some d' ->
  In (n, l) d' -> In (n, l) d \/ exists l0, In (n, l0) d /\ l = f l0.
Proof.
  revert d'. induction d as [|[k0 v0] r IH]; simpl; [discriminate|].
  intros d'. destruct (String.eqb k k0).
  - intros [= <-]. simpl. intros [[= <- <-] | H]; eauto.
  - destruct (update k f r) as [r'|]; simpl; [|discriminate].
    intros [= <-]. simpl. intros [H | H]; auto.
    destruct (IH r' eq_refl H) as [H' | (l0 & H' & ->)]; eauto.
Qed.

End Facts.

End PyDictFacts.

(** ** Facts on the parser *)

Lemma contains_truthy (c : ascii) (s : string) :
  PyStr.contains c s = true -> PyStr.truthy s = true.
Proof. destruct s; simpl; [discriminate | reflexivity]. Qed.

Lemma parse_line_header (d : platforms_t) (c : option string) (raw : string) :
  is_header raw = true ->
  parse_line (d, c) raw
  = Ret (PyDict.set (header_name raw) [] d, Some (header_name raw)).
Proof.
  unfold is_header, parse_line, header_name. intros H.
  pose proof H as H'. apply andb_true_iff in H' as [Hc _].
  rewrite (contains_truthy _ _ Hc), H. reflexivity.
Qed.

Lemma parse_line_kept (d : platforms_t) (cur : string) (raw : string) :
  is_kept_link raw = true ->
  PyStr.truthy cur = true ->
  parse_line (d, Some cur) raw
  = match PyDict.update cur (fun l => (l ++ [link_of_line raw])%list) d with
    | Some d' => Ret (d', Some cur)
    | None => Raise (KeyError cur)
    end.
Proof.
  unfold is_kept_link, is_link_line, link_of_line, parse_line.
  intros H Hcur. apply andb_true_iff in H as [Hgt Hl].
  assert (Ht : PyStr.truthy (PyStr.strip raw) = true).
  { destruct (PyStr.strip raw); [discriminate Hgt | reflexivity]. }
  rewrite Ht, Hgt, Hl. cbn [negb andb current_truthy]. rewrite Hcur.
  rewrite andb_false_r. reflexivity.
Qed.

Lemma parse_line_skip (st : parse_state) (raw : string) :
  is_header raw = false ->
  is_kept_link raw = false ->
  parse_line st raw = Ret st.
Proof.
  unfold is_header, is_kept_link, is_link_line, link_of_line, parse_line.
  destruct st as [d c]. intros Hh Hk.
  destruct (PyStr.truthy (PyStr.strip raw)); [|reflexivity].
  cbn [negb]. rewrite Hh.
  destruct (PyStr.startswith (PyStr.strip raw) ">"); [|reflexivity].
  cbn [andb] in *. rewrite Hk.
  destruct (current_truthy c); reflexivity.
Qed.

Lemma parse_line_no_platform (d : platforms_t) (c : option string) (raw : string) :
  is_header raw = false ->
  current_truthy c = false ->
  parse_line (d, c) raw = Ret (d, c).
Proof.
  unfold is_header, parse_line. intros Hh Hc.
  destruct (PyStr.truthy (PyStr.strip raw)); [|reflexivity].
  cbn [negb]. rewrite Hh, Hc, andb_false_r. reflexivity.
Qed.

(** The three ways a line is read. *)
Lemma line_kinds (raw : string) :
  is_header raw = true
  \/ (is_header raw = false /\ is_kept_link raw = true)
  \/ (is_header raw = false /\ is_kept_link raw = false).
Proof. destruct (is_header raw), (is_kept_link raw); auto. Qed.

(** One line keeps the state well formed; no [KeyError] is raised. *)
Lemma parse_line_ok (st : parse_state) (raw : string) :
  state_ok st -> exists st', parse_line st raw = Ret st' /\ state_ok st'.
Proof.
  destruct st as [d c]. intros Hok.
  destruct (line_kinds raw) as [Hh | [[Hh Hk] | [Hh Hk]]].
  - rewrite (parse_line_header _ _ _ Hh). eexists. split; [reflexivity|].
    unfold state_ok. cbn [fst snd]. rewrite PyDictFacts.get_set_eq. discriminate.
  - destruct (current_truthy c) eqn:Hc.
    + destruct c as [cur|]; [|discriminate]. cbn in Hc.
      rewrite (parse_line_kept _ _ _ Hk Hc).
      unfold state_ok in Hok. cbn [fst snd] in Hok.
      destruct (PyDict.get cur d) as [l|] eqn:Hg; [|congruence].
      destruct (PyDictFacts.update_present d cur
                  (fun l => (l ++ [link_of_line raw])%list) l Hg)
        as (d' & Hu & Hg' & _).
      rewrite Hu. eexists. split; [reflexivity|].
      unfold state_ok. cbn [fst snd]. rewrite Hg'. discriminate.
    + rewrite (parse_line_no_platform _ _ _ Hh Hc). eauto.
  - rewrite (parse_line_skip _ _ Hh Hk). eauto.
Qed.

Lemma parse_lines_ok (lines : list string) (st : parse_state) :
  state_ok st -> exists st', parse_lines st lines = Ret st' /\ state_ok st'.
Proof.
  revert st. induction lines as [|raw rest IH]; intros st Hok; simpl.
  - eauto.
  - destruct (parse_line_ok st raw Hok) as (st1 & -> & Hok1). apply IH, Hok1.
Qed.

Lemma parse_lines_app (l1 l2 : list string) (st : parse_state) :
  parse_lines st (l1 ++ l2)
  = match parse_lines st l1 with
    | Ret st' => parse_lines st' l2
    | Raise e => Raise e
    end.
Proof.
  revert st. induction l1 as [|raw rest IH]; intros st; simpl; [reflexivity|].
  destruct (parse_line st raw); [apply IH | reflexivity].
Qed.

(** The list of a platform is left alone while another one is current. *)
Lemma parse_line_frozen (name : string) (d : platforms_t) (c : option string)
    (raw : string) :
  state_ok (d, c) -> c <> Some name ->
  (is_header raw = true -> header_name raw <> name) ->
  exists d' c', parse_line (d, c) raw = Ret (d', c')
    /\ state_ok (d', c') /\ c' <> Some name
    /\ PyDict.get name d' = PyDict.get name d.
Proof.
  intros Hok Hc Hn.
  destruct (line_kinds raw) as [Hh | [[Hh Hk] | [Hh Hk]]].
  - rewrite (parse_line_header _ _ _ Hh). eexists _, _. split; [reflexivity|].
    specialize (Hn Hh). repeat split.
    + unfold state_ok. cbn [fst snd]. rewrite PyDictFacts.get_set_eq. discriminate.
    + congruence.
    + apply PyDictFacts.get_set_ne, Hn.
  - destruct (current_truthy c) eqn:Hct.
    + destruct c as [cur|]; [|discriminate]. cbn in Hct.
      rewrite (parse_line_kept _ _ _ Hk Hct).
      unfold state_ok in Hok. cbn [fst snd] in Hok.
      destruct (PyDict.get cur d) as [l|] eqn:Hg; [|congruence].
      destruct (PyDictFacts.update_present d cur
                  (fun l => (l ++ [link_of_line raw])%list) l Hg)
        as (d' & Hu & Hg' & Ho).
      rewrite Hu. eexists _, _. split; [reflexivity|]. repeat split.
      * unfold state_ok. cbn [fst snd]. rewrite Hg'. discriminate.
      * exact Hc.
      * apply Ho. congruence.
    + rewrite (parse_line_no_platform _ _ _ Hh Hct). eexists _, _. eauto.
  - rewrite (parse_line_skip _ _ Hh Hk). eexists _, _. eauto.
Qed.

Lemma parse_lines_frozen (name : string) (lines : list string)
    (d : platforms_t) (c : option string) :
  state_ok (d, c) -> c <> Some name ->
  (forall raw, In raw lines -> is_header raw = true -> header_name raw <> name) ->
  exists d' c', parse_lines (d, c) lines = Ret (d', c')
    /\ PyDict.get name d' = PyDict.get name d.
Proof.
  revert d c. induction lines as [|raw rest IH]; intros d c Hok Hc Hn;
    cbn [parse_lines].
  - eauto.
  - destruct (parse_line_frozen name d c raw Hok Hc (Hn raw (or_introl eq_refl)))
      as (d1 & c1 & -> & Hok1 & Hc1 & Hg1). cbv beta iota.
    destruct (IH d1 c1 Hok1 Hc1 (fun r Hr => Hn r (or_intror Hr)))
      as (d2 & c2 & -> & Hg2).
    eexists _, _. split; [reflexivity | congruence].
Qed.

(** The lines of one platform: every kept link up to the next header is
    appended to its list, and later platforms leave that list alone. *)
Lemma parse_lines_section (name : string) (lines : list string)
    (d : platforms_t) (l : list string) :
  PyStr.truthy name = true ->
  PyDict.get name d = Some l ->
  (forall raw, In raw lines -> is_header raw = true -> header_name raw <> name) ->
  exists d' c', parse_lines (d, Some name) lines = Ret (d', c')
    /\ PyDict.get name d'
       = Some (l ++ map link_of_line (filter is_kept_link (until_header lines)))%list.
Proof.
  intros Hname. revert d l.
  induction lines as [|raw rest IH]; intros d l Hg Hn.
  - simpl. rewrite app_nil_r. eauto.
  - cbn [parse_lines until_header].
    destruct (line_kinds raw) as [Hh | [[Hh Hk] | [Hh Hk]]]; rewrite Hh.
    + rewrite (parse_line_header _ _ _ Hh). cbv beta iota.
      pose proof (Hn raw (or_introl eq_refl) Hh) as Hne.
      assert (Hok : state_ok (PyDict.set (header_name raw) [] d,
                              Some (header_name raw))).
      { unfold state_ok. cbn [fst snd]. rewrite PyDictFacts.get_set_eq.
        discriminate. }
      assert (Hc : Some (header_name raw) <> Some name) by congruence.
      destruct (parse_lines_frozen name rest _ _ Hok Hc
                  (fun r Hr => Hn r (or_intror Hr)))
        as (d' & c' & Hrest & Hg').
      exists d', c'. split; [exact Hrest|].
      rewrite Hg', PyDictFacts.get_set_ne by exact Hne.
      cbn [filter map]. rewrite app_nil_r. exact Hg.
    + rewrite (parse_line_kept _ _ _ Hk Hname).
      destruct (PyDictFacts.update_present d name
                  (fun l => (l ++ [link_of_line raw])%list) l Hg)
        as (d1 & -> & Hg1 & _). cbv beta iota.
      destruct (IH d1 _ Hg1 (fun r Hr => Hn r (or_intror Hr)))
        as (d' & c' & -> & Hg').
      eexists _, _. split; [reflexivity|].
      rewrite Hg'. cbn [filter]. rewrite Hk. cbn [map].
      rewrite <- app_assoc. reflexivity.
    + rewrite (parse_line_skip _ _ Hh Hk). cbv beta iota.
      destruct (IH d l Hg (fun r Hr => Hn r (or_intror Hr)))
        as (d' & c' & -> & Hg').
      eexists _, _. split; [reflexivity|].
      rewrite Hg'. cbn [filter]. rewrite Hk. reflexivity.
Qed.

Lemma parse_line_urls_ok (st st' : parse_state) (raw : string) :
  parse_line st raw = Ret st' -> urls_ok (fst st) -> urls_ok (fst st').
Proof.
  destruct st as [d c]. cbn [fst].
  destruct (line_kinds raw) as [Hh | [[Hh Hk] | [Hh Hk]]].
  - rewrite (parse_line_header _ _ _ Hh). intros [= <-] Hok. cbn [fst].
    intros n l u Hin Hu.
    destruct (PyDictFacts.in_set _ _ _ _ _ Hin) as [-> | Hin']; [destruct Hu|].
    exact (Hok n l u Hin' Hu).
  - destruct (current_truthy c) eqn:Hc.
    + destruct c as [cur|]; [|discriminate]. cbn in Hc.
      rewrite (parse_line_kept _ _ _ Hk Hc).
      destruct (PyDict.update cur _ d) as [d'|] eqn:Hu; [|discriminate].
      intros [= <-] Hok. cbn [fst]. intros n l u Hin Hinu.
      destruct (PyDictFacts.in_update _ _ _ _ _ _ Hu Hin)
        as [Hin' | (l0 & Hin' & ->)]; [exact (Hok n l u Hin' Hinu)|].
      apply in_app_or in Hinu as [Hinu | [<- | []]];
        [exact (Hok n l0 u Hin' Hinu)|].
      unfold is_kept_link in Hk. apply andb_true_iff in Hk as [_ Hk].
      split; [exact Hk|]. unfold link_of_line, clean_link.
      apply PyStrFacts.strip_idem.
    + rewrite (parse_line_no_platform _ _ _ Hh Hc). intros [= <-]. auto.
  - rewrite (parse_line_skip _ _ Hh Hk). intros [= <-]. auto.
Qed.

Lemma parse_lines_urls_ok (lines : list string) (st st' : parse_state) :
  parse_lines st lines = Ret st' -> urls_ok (fst st) -> urls_ok (fst st').
Proof.
  revert st. induction lines as [|raw rest IH]; intros st; cbn [parse_lines].
  - intros [= <-]. auto.
  - destruct (parse_line st raw) as [st1|e] eqn:E; [|discriminate].
    intros Hrest Hok. apply (IH st1 Hrest).
    exact (parse_line_urls_ok _ _ _ E Hok).
Qed.

Lemma state_ok_initial : state_ok ([], None).
Proof. exact I. Qed.

(** Reading a file that opens and is read to its end: the parser returns
    what the loop built, and prints nothing. *)
Lemma parse_input_file_opened (fs : filesystem) (filename : string)
    (lines : list string) (out : list string) :
  fs filename = Opened lines None ->
  exists platforms cur,
    parse_lines ([], None) lines = Ret (platforms, cur)
    /\ parse_input_file fs filename out = (Ret platforms, out).
Proof.
  intros Hfs.
  destruct (parse_lines_ok lines _ state_ok_initial) as ([d c] & Hp & _).
  exists d, c. split; [exact Hp|].
  unfold parse_input_file, read_platforms. rewrite Hfs, Hp. reflexivity.
Qed.

(** What [parse_input_file] returns was built by the loop. *)
Lemma parse_input_file_returns (fs : filesystem) (filename : string)
    (out out' : list string) (platforms : platforms_t) :
  parse_input_file fs filename out = (Ret platforms, out') ->
  exists lines cur,
    fs filename = Opened lines None
    /\ parse_lines ([], None) lines = Ret (platforms, cur).
Proof.
  unfold parse_input_file, read_platforms.
  destruct (fs filename) as [|msg|lines [msg|]].
  - cbn. discriminate.
  - cbn. discriminate.
  - destruct (parse_lines ([], None) lines) as [[d c]|e]; cbn.
    + discriminate.
    + destruct e; cbn; discriminate.
  - destruct (parse_lines ([], None) lines) as [[d c]|e] eqn:E.
    + intros [= <- <-]. eauto.
    + destruct e; cbn; discriminate.
Qed.

(** C7 fails on the code: a [>] line without content is not stored, the
    list of a repeated platform name starts again at its last header, and
    the links under a header without name are dropped. *)
Lemma url_count_counterexample :
  ~ url_count_as_stated [] "A : 1" [">"]
  /\ ~ url_count_as_stated [] "A : 1" ["> x"; "A : 0"]
  /\ ~ url_count_as_stated [] " : 1" ["> x"].
Proof.
  unfold url_count_as_stated.
  repeat split; intros H; destruct (H eq_refl) as (p & urls & Hp & Hg & Hl);
    vm_compute in Hp; injection Hp as <-; vm_compute in Hg;
    injection Hg as <-; vm_compute in Hl; discriminate.
Qed.

(** C7, amended: for a header with a non-empty name that is the last
    header of that name, the list of the platform holds, in order, the
    urls of the lines up to the next header that start with [>] and carry
    a non-empty url; so its length is the number of those lines. *)
Theorem parse_input_file_url_count
    (fs : filesystem) (filename : string) (out : list string)
    (pre : list string) (h : string) (following : list string) :
  fs filename = Opened (pre ++ h :: following) None ->
  is_header h = true ->
  header_name h <> "" ->
  (forall raw, In raw following -> is_header raw = true ->
     header_name raw <> header_name h) ->
  exists platforms urls,
    parse_input_file fs filename out = (Ret platforms, out)
    /\ PyDict.get (header_name h) platforms = Some urls
    /\ urls = map link_of_line (filter is_kept_link (until_header following))
    /\ List.length urls
       = List.length (filter is_kept_link (until_header following)).
Proof.
  intros Hfs Hh Hname Hlast.
  destruct (parse_input_file_opened fs filename _ out Hfs)
    as (platforms & cur & Hp & Hret).
  exists platforms.
  rewrite parse_lines_app in Hp.
  destruct (parse_lines_ok pre _ state_ok_initial) as ([d0 c0] & Hpre & _).
  rewrite Hpre in Hp. cbn [parse_lines] in Hp.
  rewrite (parse_line_header _ _ _ Hh) in Hp.
  apply PyStrFacts.truthy_true_iff in Hname.
  destruct (parse_lines_section (header_name h) following
              (PyDict.set (header_name h) [] d0) [] Hname
              (PyDictFacts.get_set_eq _ _ _) Hlast)
    as (d' & c' & Hsec & Hg).
  rewrite Hsec in Hp. injection Hp as <- <-.
  eexists. split; [exact Hret|]. split; [exact Hg|].
  cbn [app]. split; [reflexivity | apply length_map].
Qed.

Lemma parse_input_file_url_count_witness :
  exists platforms urls,
    parse_input_file
      (fun _ => Opened ["# list"; "A : 3"; "> x"; ">"; "> ```y```"; "B : 1"; "> z"] None)
      "input.txt" []
    = (Ret platforms, [])
    /\ PyDict.get "A" platforms = Some urls
    /\ urls = ["x"; "y"]
    /\ List.length urls = 2%nat.
Proof.
  apply (parse_input_file_url_count
           (fun _ => Opened ["# list"; "A : 3"; "> x"; ">"; "> ```y```"; "B : 1"; "> z"] None)
           "input.txt" [] ["# list"] "A : 3" ["> x"; ">"; "> ```y```"; "B : 1"; "> z"]).
  - reflexivity.
  - reflexivity.
  - discriminate.
  - intros raw [<- | [<- | [<- | [<- | [<- | []]]]]]; vm_compute; congruence.
Defined.

(** C10: every url in every list of the mapping that [parse_input_file]
    returns is non-empty, and still non-empty once trimmed, so that the
    empty-string branch of the guard of [check_url] is not taken for
    it. *)
Theorem parse_input_file_urls_nonempty
    (fs : filesystem) (filename : string) (out out' : list string)
    (platforms : platforms_t) (name : string) (urls : list string)
    (u : string) :
  parse_input_file fs filename out = (Ret platforms, out') ->
  In (name, urls) platforms ->
  In u urls ->
  u <> "" /\ negb (PyStr.truthy (PyStr.strip u)) = false.
Proof.
  intros Hret Hin Hu.
  destruct (parse_input_file_returns _ _ _ _ _ Hret) as (lines & cur & _ & Hp).
  assert (Hok : urls_ok platforms).
  { apply (parse_lines_urls_ok lines _ _ Hp). intros n l x []. }
  destruct (Hok name urls u Hin Hu) as [Ht Hs].
  split; [apply PyStrFacts.truthy_true_iff, Ht|].
  rewrite Hs, Ht. reflexivity.
Qed.

Lemma parse_input_file_urls_nonempty_witness :
  "x" <> "" /\ negb (PyStr.truthy (PyStr.strip "x")) = false.
Proof.
  apply (parse_input_file_urls_nonempty
           (fun _ => Opened ["A : 2"; "> x"; "> ``````"] None) "input.txt" [] []
           [("A", ["x"])] "A" ["x"] "x").
  - reflexivity.
  - left. reflexivity.
  - left. reflexivity.
Defined.

(** ** Facts on the platform check *)

Lemma take_out_lt {A} (k : nat) (l : list A) :
  (k < List.length l)%nat ->
  exists x rest, take_out k l = Some (x, rest) /\ Permutation l (x :: rest).
Proof.
  revert k. induction l as [|y r IH]; intros k Hk; simpl in Hk; [lia|].
  destruct k as [|k]; simpl.
  - eexists _, _. split; [reflexivity | apply Permutation_refl].
  - destruct (IH k ltac:(lia)) as (x & rest & -> & Hp).
    eexists _, _. split; [reflexivity|].
    rewrite Hp. apply perm_swap.
Qed.

(** Whatever the schedule, every future is yielded exactly once. *)
Lemma as_completed_from_perm {A} (fuel : nat) (sched : list nat)
    (pending : list A) :
  List.length pending = fuel ->
  Permutation (as_completed_from fuel sched pending) pending.
Proof.
  revert sched pending. induction fuel as [|fuel IH]; intros sched pending Hl.
  - destruct pending; [constructor | discriminate].
  - cbn [as_completed_from].
    destruct (take_out_lt (Nat.modulo (hd O sched) (List.length pending)) pending)
      as (x & rest & -> & Hp).
    + apply Nat.mod_upper_bound. lia.
    + rewrite Hp. constructor. apply IH.
      apply Permutation_length in Hp. simpl in Hp. lia.
Qed.

Lemma as_completed_perm {A} (sched : list nat) (futures : list A) :
  Permutation (as_completed sched futures) futures.
Proof. apply as_completed_from_perm. reflexivity. Qed.

Lemma take_out_middle {A} (l1 l2 : list A) (x : A) :
  take_out (List.length l1) (l1 ++ x :: l2) = Some (x, (l1 ++ l2)%list).
Proof.
  induction l1 as [|y r IH]; simpl; [reflexivity|]. rewrite IH. reflexivity.
Qed.

(** And every order of completion is the one of some schedule. *)
Lemma as_completed_any_order {A} (order futures : list A) :
  Permutation order futures ->
  exists sched, as_completed sched futures = order.
Proof.
  unfold as_completed. revert futures.
  induction order as [|x order IH]; intros futures Hp.
  - apply Permutation_nil in Hp. subst futures. exists []. reflexivity.
  - assert (Hin : In x futures).
    { apply (Permutation_in x Hp). left. reflexivity. }
    destruct (in_split x futures Hin) as (l1 & l2 & ->).
    apply Permutation_cons_app_inv in Hp.
    destruct (IH _ Hp) as (sched & Hs).
    exists (List.length l1 :: sched).
    assert (E : List.length (l1 ++ x :: l2) = S (List.length (l1 ++ l2)))
      by (rewrite !length_app; cbn [List.length]; lia).
    assert (Hlt : (List.length l1 < List.length (l1 ++ x :: l2))%nat)
      by (rewrite length_app; cbn [List.length]; lia).
    rewrite E at 1. cbn [as_completed_from hd tl].
    rewrite (Nat.mod_small _ _ Hlt), take_out_middle, Hs. reflexivity.
Qed.

(** Every future holds the result of [check_url] on one of the links. *)
Lemma submit_all_spec (nets : transports) (links : list string) (i : nat)
    (f : Res (string * bool)) :
  In f (submit_all nets i links) ->
  exists j url, In url links
    /\ f = fst (check_url (nets j) url DEFAULT_TIMEOUT).
Proof.
  revert i. induction links as [|link rest IH]; intros i; simpl; [intros []|].
  intros [<- | H].
  - eexists _, _. split; [left; reflexivity | reflexivity].
  - destruct (IH _ H) as (j & url & Hin & ->). eauto.
Qed.

Lemma submit_all_length (nets : transports) (links : list string) (i : nat) :
  List.length (submit_all nets i links) = List.length links.
Proof.
  revert i. induction links as [|link rest IH]; intros i; simpl; [reflexivity|].
  rewrite IH. reflexivity.
Qed.

(** The loop over futures that all returned: the counters move by one
    per future and one link record is appended per future. *)
Lemma collect_all_returned (futures : list (Res (string * bool)))
    (results : PlatformResult) (out : list string) :
  (forall f, In f futures -> exists p, f = Ret p) ->
  exists r,
    collect_all results futures out = (Ret r, out)
    /\ platform r = platform results
    /\ total r = total results
    /\ active r + error r
       = active results + error results + Z.of_nat (List.length futures)
    /\ List.length (links r)
       = (List.length (links results) + List.length futures)%nat
    /\ (forall l, In l (links r) ->
          In l (links results)
          \/ exists p, In (Ret p) futures /\ l = link_of_pair p).
Proof.
  revert results. induction futures as [|f rest IH]; intros results Hall.
  - exists results. cbn [collect_all ret List.length].
    repeat split; try lia. auto.
  - destruct (Hall f (or_introl eq_refl)) as ([url b] & ->).
    cbn [collect_all]. unfold bind at 1. unfold collect, bind, of_res.
    destruct b; cbn [ret].
    + destruct (IH (mkResult (platform results) (total results)
                      (active results + 1) (error results)
                      (links results ++ [mkLink url Active])%list)
                  (fun g Hg => Hall g (or_intror Hg)))
        as (r & -> & Hp & Ht & Hc & Hl & Hin).
      cbn [platform total active error links] in *.
      exists r. rewrite length_app in Hl. cbn [List.length] in *.
      repeat split; try assumption; try lia.
      intros l Hlr. destruct (Hin l Hlr) as [H | (p & Hp' & ->)].
      * apply in_app_or in H as [H | [<- | []]]; [auto|].
        right. exists (url, true). split; [left; reflexivity | reflexivity].
      * right. exists p. split; [right; exact Hp' | reflexivity].
    + destruct (IH (mkResult (platform results) (total results)
                      (active results) (error results + 1)
                      (links results ++ [mkLink url Error])%list)
                  (fun g Hg => Hall g (or_intror Hg)))
        as (r & -> & Hp & Ht & Hc & Hl & Hin).
      cbn [platform total active error links] in *.
      exists r. rewrite length_app in Hl. cbn [List.length] in *.
      repeat split; try assumption; try lia.
      intros l Hlr. destruct (Hin l Hlr) as [H | (p & Hp' & ->)].
      * apply in_app_or in H as [H | [<- | []]]; [auto|].
        right. exists (url, false). split; [left; reflexivity | reflexivity].
      * right. exists p. split; [right; exact Hp' | reflexivity].
Qed.

(** What [check_platform_links] returns and prints. *)
Lemma check_platform_links_spec (nets : transports) (sched : list nat)
    (name : string) (urls : list string) (out : list string) :
  exists r out',
    check_platform_links nets sched name urls out = (Ret r, out')
    /\ platform r = name
    /\ total r = Z.of_nat (List.length urls)
    /\ active r + error r = Z.of_nat (List.length urls)
    /\ List.length (links r) = List.length urls
    /\ (forall l, In l (links r) ->
          exists j url, In url urls
            /\ Ret (link_url l, match link_status_of l with
                                | Active => true | Error => false end)
               = fst (check_url (nets j) url DEFAULT_TIMEOUT)).
Proof.
  set (futures := as_completed sched (submit_all nets O urls)).
  assert (Hfut : forall f, In f futures ->
            exists j url, In url urls
              /\ f = fst (check_url (nets j) url DEFAULT_TIMEOUT)).
  { intros f Hf. apply (submit_all_spec nets urls O).
    apply (Permutation_in _ (as_completed_perm sched _) Hf). }
  assert (Hret : forall f, In f futures -> exists p, f = Ret p).
  { intros f Hf. destruct (Hfut f Hf) as (j & url & _ & ->).
    destruct (check_url_returns (nets j) url DEFAULT_TIMEOUT) as (u & b & ->).
    eauto. }
  assert (Hlen : List.length futures = List.length urls).
  { unfold futures.
    rewrite (Permutation_length (as_completed_perm sched _)).
    apply submit_all_length. }
  unfold check_platform_links. fold futures.
  unfold bind at 1. unfold print_end at 1. unfold modify at 1.
  unfold bind at 1.
  match goal with
  | |- context [collect_all ?r0 futures ?o] =>
      destruct (collect_all_returned futures r0 o Hret)
        as (r & Hr & Hp & Ht & Hc & Hl & Hin)
  end.
  cbn [platform total active error links List.length] in *.
  exists r. rewrite Hr. unfold bind, print, print_end, modify, ret.
  eexists. split; [reflexivity|].
  repeat split; try assumption; try lia.
  intros l Hlr. destruct (Hin l Hlr) as [[] | ([u b] & Hpin & ->)].
  destruct (Hfut _ Hpin) as (j & url & Hu & Heq).
  exists j, url. split; [exact Hu|].
  rewrite <- Heq. destruct b; reflexivity.
Qed.

(** C1: for every platform name, every list of urls, every behaviour of
    the network and every completion order, [check_platform_links] returns
    a result whose active and error counts add up to its total, which is
    the number of urls given and the number of link records. *)
Theorem check_platform_links_counts (nets : transports) (sched : list nat)
    (name : string) (urls : list string) (out : list string) :
  exists r out',
    check_platform_links nets sched name urls out = (Ret r, out')
    /\ active r + error r = total r
    /\ total r = Z.of_nat (List.length (links r))
    /\ total r = Z.of_nat (List.length urls).
Proof.
  destruct (check_platform_links_spec nets sched name urls out)
    as (r & out' & Hr & _ & Ht & Hc & Hl & _).
  exists r, out'. split; [exact Hr|]. rewrite Hl. lia.
Qed.

Lemma probed_url_has_scheme (url : string) : has_scheme (probed_url url) = true.
Proof.
  unfold probed_url. destruct (has_scheme url) eqn:E; [exact E|].
  destruct url; reflexivity.
Qed.

(** C5 fails on the code: the sentinel is stored as it is. *)
Lemma urls_prefixed_counterexample :
  ~ urls_prefixed_as_stated (fun _ _ => Response 200) [] "Medium" ["unavailable"].
Proof.
  intros H.
  specialize (H (mkResult "Medium" 1 0 1 [mkLink "unavailable" Error]) _ eq_refl
                (mkLink "unavailable" Error) (or_introl eq_refl)).
  discriminate H.
Qed.

(** C5, amended: every link record comes from one of the urls given; for
    a url that the guard lets through, the stored url is the probed one
    and starts with [http://] or [https://]; for a url that is empty once
    trimmed or is the sentinel, the stored url is the input, unchanged,
    with status Error. *)
Theorem check_platform_links_urls (nets : transports) (sched : list nat)
    (name : string) (urls : list string) (out out' : list string)
    (r : PlatformResult) (l : LinkResult) :
  check_platform_links nets sched name urls out = (Ret r, out') ->
  In l (links r) ->
  exists url, In url urls
    /\ if skipped url
       then link_url l = url /\ link_status_of l = Error
       else link_url l = probed_url url /\ has_scheme (link_url l) = true.
Proof.
  intros Hrun Hl.
  destruct (check_platform_links_spec nets sched name urls out)
    as (r' & out'' & Hr & _ & _ & _ & _ & Hin).
  rewrite Hrun in Hr. injection Hr as <- <-.
  destruct (Hin l Hl) as (j & url & Hu & Heq).
  exists url. split; [exact Hu|].
  rewrite check_url_cases in Heq.
  destruct (skipped url).
  - cbn [fst] in Heq. injection Heq as -> Hs.
    split; [reflexivity|]. destruct (link_status_of l); [discriminate | reflexivity].
  - cbv zeta in Heq.
    assert (Hurl : link_url l = probed_url url).
    { destruct (nets j _) as [c|k]; [destruct (400 <=? c); [destruct (nets j _)|]|];
        cbn [fst] in Heq; injection Heq as -> _; reflexivity. }
    split; [exact Hurl|]. rewrite Hurl. apply probed_url_has_scheme.
Qed.

Lemma check_platform_links_urls_witness :
  exists url, In url ["example.com"; "unavailable"]
    /\ if skipped url
       then "unavailable" = url /\ Error = Error
       else "unavailable" = probed_url url /\ has_scheme "unavailable" = true.
Proof.
  apply (check_platform_links_urls (fun _ _ => Response 200) [1%nat] "Medium"
           ["example.com"; "unavailable"] []
           (snd (check_platform_links (fun _ _ => Response 200) [1%nat] "Medium"
                   ["example.com"; "unavailable"] []))
           (mkResult "Medium" 2 1 1
              [mkLink "unavailable" Error; mkLink "https://example.com" Active])
           (mkLink "unavailable" Error)).
  - reflexivity.
  - left. reflexivity.
Defined.

(** ** Facts on the top level *)

Lemma read_platforms_fatal (fs : filesystem) (filename : string)
    (out : list string) :
  is_fatal_input (fs filename) = true ->
  parse_input_file fs filename out
  = match fs filename with
    | Opened _ None => (Ret [], out)
    | o => (Raise (SystemExit 1), (out ++ [(fatal_message filename o ++ NL)%string])%list)
    end.
Proof.
  unfold parse_input_file, read_platforms, is_fatal_input, fatal_message.
  destruct (fs filename) as [|msg|lines [msg|]]; intros H.
  - reflexivity.
  - reflexivity.
  - destruct (parse_lines_ok lines _ state_ok_initial) as ([d c] & -> & _).
    reflexivity.
  - destruct (parse_lines ([], None) lines) as [[[|] c]|e];
      [reflexivity | discriminate | discriminate].
Qed.

(** C9: with a file argument, when the file does not exist, cannot be
    opened or read to its end, or parses to no platform at all, the
    program exits with status 1, and the last thing it prints is a message
    that says so: [Error: File '<name>' tidak ditemukan!] for a missing
    file, [Error membaca file: <reason>] for another failure, printed by
    [parse_input_file], and [Tidak ada data platform ditemukan!], printed
    by [main], for an empty mapping. *)
Theorem fatal_input_exits_with_1 (env : environment) (prog filename : string)
    (more : list string) :
  argv env = prog :: filename :: more ->
  is_fatal_input (fs env filename) = true ->
  run env
  = (1, (preamble filename
         ++ [match fs env filename with
             | NoSuchFile =>
                 Colors.RED ++ "Error: File '" ++ filename
                 ++ "' tidak ditemukan!" ++ Colors.RESET ++ NL
             | OpenFails reason | Opened _ (Some reason) =>
                 Colors.RED ++ "Error membaca file: " ++ reason
                 ++ Colors.RESET ++ NL
             | Opened _ None =>
                 Colors.RED ++ "Tidak ada data platform ditemukan!"
                 ++ Colors.RESET ++ NL
             end%string])%list).
Proof.
  intros Hargv Hfatal.
  unfold run, top_level, main. rewrite Hargv.
  unfold bind at 1. unfold print at 1, print_end at 1, modify at 1.
  unfold bind at 1. unfold print at 1, print_end at 1, modify at 1.
  unfold bind at 1. unfold print at 1, print_end at 1, modify at 1.
  unfold bind at 1.
  rewrite (read_platforms_fatal _ _ _ Hfatal).
  unfold is_fatal_input in Hfatal. unfold preamble.
  destruct (fs env filename) as [|reason|lines [reason|]];
    cbn [fatal_message]; unfold msg_file_not_found, msg_read_error, str_of_exn;
    repeat rewrite <- app_assoc; cbn [app];
    do 2 f_equal; f_equal; f_equal; f_equal;
    rewrite ?PyStrFacts.append_assoc; reflexivity.
Qed.

Lemma fatal_input_exits_with_1_witness :
  run env_missing_file
  = (1, (preamble "links.txt"
         ++ [(Colors.RED ++ "Error: File 'links.txt' tidak ditemukan!"
              ++ Colors.RESET ++ NL)%string])%list).
Proof.
  apply (fatal_input_exits_with_1 env_missing_file "hsc.py" "links.txt" []);
    reflexivity.
Defined.

(** ** Facts on floats and on the format of the success rate *)

Lemma digits2_size (p : positive) : digits2_pos p = Pos.size p.
Proof. induction p; simpl; congruence. Qed.

Lemma Zdigits2_le_iff (a k : Z) :
  0 <= a -> 0 <= k -> (Zdigits2 a <= k <-> a < 2 ^ k).
Proof.
  intros Ha Hk. destruct a as [|p|p]; [|clear Ha|lia].
  - simpl. split; [intros _; apply Z.pow_pos_nonneg; lia | intros _; exact Hk].
  - simpl. rewrite digits2_size.
    pose proof (Pos.size_gt p) as Hgt. pose proof (Pos.size_le p) as Hle.
    apply Pos2Z.pos_lt_pos in Hgt. apply Pos2Z.pos_le_pos in Hle.
    rewrite Pos2Z.inj_pow in Hgt, Hle. change (Z.pos p~0) with (2 * Z.pos p) in Hle.
    split; intros H.
    + eapply Z.lt_le_trans; [exact Hgt|]. apply Z.pow_le_mono_r; lia.
    + destruct (Z_lt_le_dec k (Z.pos (Pos.size p))) as [Hlt|]; [|assumption].
      exfalso.
      assert (2 ^ (k + 1) <= 2 ^ Z.pos (Pos.size p)) by (apply Z.pow_le_mono_r; lia).
      rewrite Z.pow_add_r in H0 by lia. lia.
Qed.

Lemma Zdigits2_nonneg (a : Z) : 0 <= Zdigits2 a.
Proof. destruct a; simpl; lia. Qed.

Lemma Zdigits2_bound (a : Z) : 0 <= a -> a < 2 ^ Zdigits2 a.
Proof.
  intros Ha. apply Zdigits2_le_iff; [assumption | apply Zdigits2_nonneg | lia].
Qed.

Lemma shr_1_m (mrs : shr_record) :
  0 <= shr_m mrs -> shr_m (shr_1 mrs) = shr_m mrs / 2.
Proof.
  destruct mrs as [m r s]. cbn [shr_m]. intros Hm.
  destruct m as [|[p|p|]|p]; try lia; cbn [shr_1 shr_m]; try reflexivity.
  - apply Z.div_unique with (r := 1); lia.
  - apply Z.div_unique with (r := 0); lia.
Qed.

Lemma shr_iter_m (p : positive) (mrs : shr_record) :
  0 <= shr_m mrs ->
  shr_m (iter_pos shr_1 p mrs) = shr_m mrs / 2 ^ Z.pos p.
Proof.
  revert mrs. induction p as [p IH|p IH|]; intros mrs Hm; cbn [iter_pos].
  - assert (H1 : 0 <= shr_m (shr_1 mrs)).
    { rewrite shr_1_m by assumption. apply Z.div_pos; lia. }
    assert (H2 : 0 <= shr_m (iter_pos shr_1 p (shr_1 mrs))).
    { rewrite IH by assumption. apply Z.div_pos; [assumption|]. apply Z.pow_pos_nonneg; lia. }
    rewrite IH, IH, shr_1_m by assumption.
    assert (Hp : 0 < 2 ^ Z.pos p) by (apply Z.pow_pos_nonneg; lia).
    rewrite !Z.div_div by lia.
    f_equal.
    assert (E : Z.pos p~1 = 1 + Z.pos p + Z.pos p) by lia.
    rewrite E, !Z.pow_add_r by lia. lia.
  - assert (H2 : 0 <= shr_m (iter_pos shr_1 p mrs)).
    { rewrite IH by assumption. apply Z.div_pos; [assumption|]. apply Z.pow_pos_nonneg; lia. }
    rewrite IH, IH by assumption.
    assert (Hp : 0 < 2 ^ Z.pos p) by (apply Z.pow_pos_nonneg; lia).
    rewrite !Z.div_div by lia.
    f_equal.
    assert (E : Z.pos p~0 = Z.pos p + Z.pos p) by lia.
    rewrite E, !Z.pow_add_r by lia. lia.
  - rewrite shr_1_m by assumption. reflexivity.
Qed.

Lemma fexp_eq (e : Z) : fexp 53 1024 e = Z.max (e - 53) (-1074).
Proof. reflexivity. Qed.

Lemma shr_record_of_loc_m (m : Z) (l : location) :
  shr_m (shr_record_of_loc m l) = m.
Proof. destruct l as [|[]]; reflexivity. Qed.

Lemma round_nearest_even_bounds (m : Z) (l : location) :
  m <= round_nearest_even m l <= m + 1.
Proof. destruct l as [|[]]; cbn; try lia. destruct (Z.even m); lia. Qed.

(** The shift that brings a mantissa into the format drops its low
    bits: it is a division by a power of two. *)
Lemma shr_fexp_div (mx ex : Z) (lx : location) :
  0 <= mx ->
  let E := Z.max ex (fexp 53 1024 (Zdigits2 mx + ex)) in
  exists mrs,
    shr_fexp 53 1024 mx ex lx = (mrs, E)
    /\ shr_m mrs = mx / 2 ^ (E - ex).
Proof.
  intros Hmx E. unfold shr_fexp, shr. subst E.
  set (n := fexp 53 1024 (Zdigits2 mx + ex) - ex).
  assert (Hn : fexp 53 1024 (Zdigits2 mx + ex) = ex + n) by (unfold n; lia).
  rewrite Hn. clearbody n. clear Hn.
  destruct n as [|p|p].
  - eexists. split; [f_equal; lia|]. rewrite shr_record_of_loc_m.
    replace (Z.max ex (ex + 0) - ex) with 0 by lia. rewrite Z.pow_0_r, Z.div_1_r.
    reflexivity.
  - eexists. split; [f_equal; lia|].
    rewrite shr_iter_m by (rewrite shr_record_of_loc_m; assumption).
    rewrite shr_record_of_loc_m. f_equal. f_equal. lia.
  - eexists. split; [f_equal; lia|]. rewrite shr_record_of_loc_m.
    replace (Z.max ex (ex + Z.neg p) - ex) with 0 by lia. rewrite Z.pow_0_r, Z.div_1_r.
    reflexivity.
Qed.

Lemma div_pow2_bounds (m n : Z) :
  0 <= n -> m / 2 ^ n * 2 ^ n <= m < (m / 2 ^ n + 1) * 2 ^ n.
Proof.
  intros Hn. assert (Hp : 0 < 2 ^ n) by (apply Z.pow_pos_nonneg; lia).
  pose proof (Z.div_mod m (2 ^ n) ltac:(lia)).
  pose proof (Z.mod_pos_bound m (2 ^ n) Hp). nia.
Qed.

(** Rounding to the format: the mantissa loses its low bits and may go up
    by one; nothing overflows while the exponent is small enough. *)
Lemma binary_round_aux_value (s : bool) (mx ex : Z) (lx : location) :
  0 <= mx ->
  let E := Z.max ex (fexp 53 1024 (Zdigits2 mx + ex)) in
  E <= 970 ->
  exists M,
    mx / 2 ^ (E - ex) <= M <= mx / 2 ^ (E - ex) + 1
    /\ rounds_to s M E (binary_round_aux 53 1024 s mx ex lx).
Proof.
  intros Hmx E HE.
  pose proof (Zdigits2_bound mx Hmx) as Hb.
  pose proof (Zdigits2_nonneg mx) as Hd0.
  unfold binary_round_aux.
  destruct (shr_fexp_div mx ex lx Hmx) as (mrs1 & -> & Hm1). fold E in Hm1.
  fold E.
  assert (HEdef : E = Z.max ex (Z.max (Zdigits2 mx + ex - 53) (-1074))) by reflexivity.
  set (m1 := mx / 2 ^ (E - ex)) in *.
  assert (Hn : 0 <= E - ex) by lia.
  pose proof (div_pow2_bounds mx (E - ex) Hn) as Hdiv. fold m1 in Hdiv.
  assert (Hm1pos : 0 <= m1) by (apply Z.div_pos; [lia | apply Z.pow_pos_nonneg; lia]).
  set (m2 := round_nearest_even (shr_m mrs1) (loc_of_shr_record mrs1)).
  pose proof (round_nearest_even_bounds (shr_m mrs1) (loc_of_shr_record mrs1)) as Hm2.
  fold m2 in Hm2. rewrite Hm1 in Hm2.
  assert (H53 : m1 < 2 ^ 53).
  { assert (Hpow : 2 ^ Zdigits2 mx <= 2 ^ 53 * 2 ^ (E - ex)).
    { rewrite <- Z.pow_add_r by lia. apply Z.pow_le_mono_r; lia. }
    assert (0 < 2 ^ (E - ex)) by (apply Z.pow_pos_nonneg; lia).
    nia. }
  assert (Hm2' : 0 <= m2) by lia.
  exists m2. split; [exact Hm2|].
  destruct (shr_fexp_div m2 E loc_Exact Hm2') as (mrs2 & -> & Hm3).
  rewrite fexp_eq in Hm3 |- *.
  destruct (Z_lt_le_dec m2 (2 ^ 53)) as [Hlt | Hge].
  - assert (Hd2 : Zdigits2 m2 <= 53) by (apply Zdigits2_le_iff; lia).
    assert (E2 : Z.max E (Z.max (Zdigits2 m2 + E - 53) (-1074)) = E) by lia.
    rewrite E2 in Hm3 |- *. rewrite Z.sub_diag, Z.pow_0_r, Z.div_1_r in Hm3.
    rewrite Hm3.
    destruct m2 as [|m|m]; cbn [rounds_to]; [split; reflexivity| |lia].
    assert (Hle : (E <=? 1024 - 53) = true) by (apply Z.leb_le; lia).
    rewrite Hle. cbn [rounds_to]. rewrite Z.sub_diag, Z.pow_0_r.
    split; [reflexivity|]. split; lia.
  - assert (Heq : m2 = 2 ^ 53) by lia.
    rewrite Heq in Hm3 |- *.
    change (Zdigits2 (2 ^ 53)) with 54 in Hm3 |- *.
    assert (E2 : Z.max E (Z.max (54 + E - 53) (-1074)) = E + 1) by lia.
    rewrite E2 in Hm3 |- *.
    replace (E + 1 - E) with 1 in Hm3 by lia.
    change (2 ^ 53 / 2 ^ 1) with (Z.pos (2 ^ 52)) in Hm3. rewrite Hm3.
    assert (Hle : (E + 1 <=? 1024 - 53) = true) by (apply Z.leb_le; lia).
    rewrite Hle. cbn [rounds_to].
    split; [reflexivity|]. split; [lia|].
    replace (E + 1 - E) with 1 by lia. reflexivity.
Qed.

Lemma checked_rounds_to (msg : string) (s : bool) (M E : Z) (x : spec_float) :
  rounds_to s M E x -> PyFloat.checked msg x = Ret x.
Proof. destruct x; cbn; intros H; (reflexivity || destruct H). Qed.

(** The quotient of two counts: a float within one unit in the last
    place of the exact quotient. *)
Lemma int_truediv_value (a t : Z) :
  0 <= a <= t -> 0 < t ->
  exists q N k,
    PyFloat.int_truediv a t = Ret q
    /\ float_is q N k /\ 51 <= k /\ 0 <= N <= 2 ^ k + 1
    /\ Z.abs (N * t - a * 2 ^ k) <= t.
Proof.
  intros Ha Ht. unfold PyFloat.int_truediv.
  assert (E0 : (t =? 0) = false) by (apply Z.eqb_neq; lia). rewrite E0.
  assert (Ea : (a <? 0) = false) by (apply Z.ltb_ge; lia).
  assert (Et : (t <? 0) = false) by (apply Z.ltb_ge; lia).
  rewrite Ea, Et, (Z.abs_eq a), (Z.abs_eq t) by lia. cbn [xorb].
  unfold SFdiv_core_binary, PyFloat.prec, PyFloat.emax.
  rewrite fexp_eq.
  pose proof (Zdigits2_nonneg a) as Hda.
  assert (Hdat : Zdigits2 a <= Zdigits2 t).
  { apply Zdigits2_le_iff; [lia | apply Zdigits2_nonneg|].
    pose proof (Zdigits2_bound t ltac:(lia)). lia. }
  set (e' := Z.min (Z.max (Zdigits2 a + 0 - (Zdigits2 t + 0) - 53) (-1074)) (0 - 0)).
  assert (He' : -1074 <= e' <= -53) by (unfold e'; lia).
  destruct (0 - 0 - e') as [|sp|sp] eqn:Es; [lia| |lia].
  rewrite Z.shiftl_mul_pow2 by lia.
  set (s := Z.pos sp) in *.
  assert (Hs : s = - e') by lia.
  assert (Hps : 0 < 2 ^ s) by (apply Z.pow_pos_nonneg; lia).
  destruct (Z.div_eucl (a * 2 ^ s) t) as [q r] eqn:Eq.
  assert (Hq : q = a * 2 ^ s / t) by (unfold Z.div; rewrite Eq; reflexivity).
  assert (Hqt : q * t <= a * 2 ^ s < (q + 1) * t).
  { pose proof (Z.div_mod (a * 2 ^ s) t ltac:(lia)).
    pose proof (Z.mod_pos_bound (a * 2 ^ s) t Ht). rewrite <- Hq in *. nia. }
  assert (Hq0 : 0 <= q) by (rewrite Hq; apply Z.div_pos; nia).
  assert (Hq1 : q < 2 ^ (s + 1)).
  { rewrite Z.pow_add_r by lia. nia. }
  assert (Hdq : Zdigits2 q <= s + 1) by (apply Zdigits2_le_iff; lia).
  pose proof (Zdigits2_nonneg q) as Hdq0.
  set (E := Z.max e' (fexp 53 1024 (Zdigits2 q + e'))).
  assert (HE : e' <= E <= -52) by (unfold E; rewrite fexp_eq; lia).
  destruct (binary_round_aux_value false q e' (new_location t r) Hq0)
    as (M & HM & Hr); [fold E; lia|]. fold E in HM, Hr.
  rewrite (checked_rounds_to _ _ _ _ _ Hr).
  set (n := E - e') in *.
  assert (Hn : 0 <= n) by (unfold n; lia).
  pose proof (div_pow2_bounds q n Hn) as Hdiv.
  set (m1 := q / 2 ^ n) in *.
  assert (Hpn : 0 < 2 ^ n) by (apply Z.pow_pos_nonneg; lia).
  assert (HP : 0 < 2 ^ (- E)) by (apply Z.pow_pos_nonneg; lia).
  assert (Hsplit : 2 ^ s = 2 ^ (- E) * 2 ^ n).
  { rewrite <- Z.pow_add_r by lia. f_equal. unfold n. lia. }
  assert (Hlo : m1 * t <= a * 2 ^ (- E)).
  { apply Z.mul_le_mono_pos_r with (p := 2 ^ n); [assumption|].
    rewrite Hsplit in Hqt. nia. }
  assert (Hhi : a * 2 ^ (- E) < (m1 + 1) * t).
  { apply Z.mul_lt_mono_pos_r with (p := 2 ^ n); [assumption|].
    rewrite Hsplit in Hqt.
    apply Z.lt_le_trans with ((q + 1) * t); [nia|].
    assert (q + 1 <= (m1 + 1) * 2 ^ n) by lia. nia. }
  assert (HMt : Z.abs (M * t - a * 2 ^ (- E)) <= t) by nia.
  assert (HM0 : 0 <= m1) by (apply Z.div_pos; lia).
  destruct (binary_round_aux 53 1024 false q e' (new_location t r))
    as [s0| | |s0 m e]; cbn [rounds_to] in Hr; try (destruct Hr; fail).
  - destruct Hr as (-> & HM').
    exists (S754_zero false), 0, (- E).
    split; [reflexivity|]. split; [split; reflexivity|]. split; [lia|].
    split; [lia|]. rewrite HM' in HMt. exact HMt.
  - destruct Hr as (-> & He & Hm).
    exists (S754_finite false m e), (Z.pos m), (- e).
    split; [reflexivity|]. split; [repeat split; lia|]. split; [lia|].
    assert (Hpe : 0 < 2 ^ (- e)) by (apply Z.pow_pos_nonneg; lia).
    assert (Hbound : Z.abs (Z.pos m * t - a * 2 ^ (- e)) <= t).
    { destruct (Z.eq_dec e E) as [-> | Hne].
      - rewrite Z.sub_diag, Z.pow_0_r in Hm. rewrite <- Hm in HMt. 
        replace (Z.pos m * 1) with (Z.pos m) in HMt by lia. exact HMt.
      - assert (He1 : e = E + 1) by lia.
        assert (Hp2 : 2 ^ (- E) = 2 * 2 ^ (- e)).
        { replace (- E) with (1 + - e) by lia. rewrite Z.pow_add_r by lia. reflexivity. }
        replace (e - E) with 1 in Hm by lia. rewrite Z.pow_1_r in Hm.
        rewrite <- Hm, Hp2 in HMt. lia. }
    split; [|exact Hbound]. split; [lia|]. nia.
Qed.

Lemma float_100 :
  PyFloat.float_of_int 100 = Ret (S754_finite false 7036874417766400 (-46)).
Proof. reflexivity. Qed.

(** The product of such a quotient with 100: a float within one unit in
    the last place of the exact product. *)
Lemma mul_100_value (q : spec_float) (N k : Z) :
  float_is q N k -> 51 <= k -> 0 <= N <= 2 ^ k + 1 ->
  exists p N' k' j,
    PyFloat.mul_int q 100 = Ret p
    /\ float_is p N' k' /\ 0 <= N' /\ 0 < k' <= k + 46 /\ 0 <= j <= k
    /\ Z.abs (N' * 2 ^ (k + 46 - k') - 100 * (N * 2 ^ 46)) <= 2 ^ j.
Proof.
  intros Hq Hk HN. unfold PyFloat.mul_int. rewrite float_100.
  unfold PyFloat.prec, PyFloat.emax.
  destruct q as [s| | |s m e]; cbn [float_is] in Hq; try (destruct Hq; fail).
  - destruct Hq as (-> & ->). cbn [SFmul xorb].
    exists (S754_zero false), 0, 46, 0.
    split; [reflexivity|]. split; [split; reflexivity|].
    repeat split; lia.
  - destruct Hq as (-> & -> & HmN). cbn [SFmul xorb].
    set (mx := Z.pos (m * 7036874417766400)).
    set (ex := - k + -46).
    assert (Hmx : mx = 100 * (N * 2 ^ 46)).
    { unfold mx. rewrite Pos2Z.inj_mul, HmN.
      change (Z.pos 7036874417766400) with (100 * 2 ^ 46). ring. }
    assert (Hpk : 0 < 2 ^ k) by (apply Z.pow_pos_nonneg; lia).
    assert (Hmx1 : mx < 2 ^ (k + 53)).
    { rewrite Hmx. replace (k + 53) with (k + 7 + 46) by lia.
      rewrite !Z.pow_add_r by lia. change (2 ^ 7) with 128.
      assert (H51 : 2 ^ 51 <= 2 ^ k) by (apply Z.pow_le_mono_r; lia).
      change (2 ^ 51) with 2251799813685248 in H51.
      rewrite Z.mul_assoc. apply Z.mul_lt_mono_pos_r; [reflexivity | lia]. }
    assert (Hmx0 : 0 <= mx) by (unfold mx; lia).
    assert (Hd : Zdigits2 mx <= k + 53) by (apply Zdigits2_le_iff; lia).
    pose proof (Zdigits2_nonneg mx) as Hd0.
    set (E := Z.max ex (fexp 53 1024 (Zdigits2 mx + ex))).
    assert (HE : ex <= E <= -46) by (unfold E, ex; rewrite fexp_eq; lia).
    destruct (binary_round_aux_value false mx ex loc_Exact Hmx0) as (M & HM & Hr);
      [fold E; lia|]. fold E in HM, Hr.
    set (j := E - ex) in *.
    assert (Hj : 0 <= j <= k) by (unfold j, ex in *; lia).
    pose proof (div_pow2_bounds mx j ltac:(lia)) as Hdiv.
    set (m1 := mx / 2 ^ j) in *.
    assert (Hpj : 0 < 2 ^ j) by (apply Z.pow_pos_nonneg; lia).
    assert (HMj : Z.abs (M * 2 ^ j - mx) <= 2 ^ j) by nia.
    assert (Hm10 : 0 <= m1) by (apply Z.div_pos; lia).
    destruct (binary_round_aux 53 1024 false mx ex loc_Exact)
      as [s0| | |s0 mp ep]; cbn [rounds_to] in Hr; try (destruct Hr; fail).
    + destruct Hr as (-> & HM').
      exists (S754_zero false), 0, 46, j.
      split; [reflexivity|]. split; [split; reflexivity|].
      split; [lia|]. split; [lia|]. split; [lia|].
      rewrite HM' in HMj. rewrite <- Hmx. cbn [Z.mul] in *. exact HMj.
    + destruct Hr as (-> & He & Hm).
      exists (S754_finite false mp ep), (Z.pos mp), (- ep), j.
      split; [reflexivity|]. split; [repeat split; lia|].
      split; [lia|]. split; [unfold ex in *; lia|]. split; [lia|].
      rewrite <- Hmx.
      replace (k + 46 - - ep) with (ep - E + j) by (unfold j, ex; lia).
      rewrite Z.pow_add_r by lia. rewrite Z.mul_assoc, Hm. exact HMj.
Qed.

Lemma div_half_even_spec (n d : Z) :
  0 < d -> nearest_even (PyFloat.div_half_even n d) n d.
Proof.
  intros Hd. unfold nearest_even, PyFloat.div_half_even. cbv zeta.
  pose proof (Z.div_mod n d ltac:(lia)) as Hdm.
  pose proof (Z.mod_pos_bound n d Hd) as Hm.
  set (q := n / d) in *. set (r := n mod d) in *. clearbody q r.
  assert (E1 : q * d - n = - r) by (rewrite Hdm; ring).
  assert (E2 : (q + 1) * d - n = d - r) by (rewrite Hdm; ring).
  destruct (2 * r ?= d) eqn:Ec.
  - apply Z.compare_eq in Ec. destruct (Z.even q) eqn:Eq; rewrite ?E1, ?E2.
    + split; [lia | intros _; exact Eq].
    + split; [lia | intros _].
      rewrite Z.even_add, Eq. reflexivity.
  - rewrite Z.compare_lt_iff in Ec. rewrite E1. split; lia.
  - rewrite Z.compare_gt_iff in Ec. rewrite E2. split; lia.
Qed.

Lemma div_half_even_nonneg (n d : Z) : 0 <= n -> 0 < d -> 0 <= PyFloat.div_half_even n d.
Proof.
  intros Hn Hd. unfold PyFloat.div_half_even.
  assert (0 <= n / d) by (apply Z.div_pos; lia).
  destruct (2 * (n mod d) ?= d); [destruct (Z.even (n / d))| |]; lia.
Qed.

(** What the [.1f] format prints for such a float: the tenths nearest to
    its value. *)
Lemma format_1f_value (p : spec_float) (N k : Z) :
  float_is p N k -> 0 < k ->
  let T := PyFloat.div_half_even (10 * N) (2 ^ k) in
  PyFloat.format_1f p = PyStr.of_int (T / 10) ++ "." ++ PyStr.of_int (T mod 10).
Proof.
  intros Hp Hk.
  assert (Hpk : 0 < 2 ^ k) by (apply Z.pow_pos_nonneg; lia).
  destruct p as [s| | |s m e]; cbn [float_is] in Hp; try (destruct Hp; fail).
  - destruct Hp as (-> & ->). cbv zeta.
    assert (E : PyFloat.div_half_even (10 * 0) (2 ^ k) = 0).
    { unfold PyFloat.div_half_even. cbn [Z.mul]. rewrite Z.div_0_l, Z.mod_0_l by lia.
      cbn [Z.mul]. destruct (0 ?= 2 ^ k) eqn:Ec; try reflexivity.
      rewrite Z.compare_gt_iff in Ec. lia. }
    rewrite E. reflexivity.
  - destruct Hp as (-> & -> & <-). cbv zeta.
    cbn [PyFloat.format_1f PyFloat.sign_str]. unfold PyFloat.tenths.
    assert (E : (0 <=? - k) = false) by (apply Z.leb_gt; lia).
    rewrite E, Z.opp_involutive, (Z.mul_comm (Z.pos m) 10). reflexivity.
Qed.

(** The three roundings together: the tenths printed are within one half,
    and a little, of a thousand times the exact quotient. *)
Lemma tenths_close (a t U c j0 Rq X T : Z) :
  0 < t -> 0 < U ->
  Z.abs (Rq * t - a * U) <= c * t -> 2 ^ 51 * c <= U ->
  Z.abs (X - 100 * Rq) <= j0 -> 2 ^ 46 * j0 <= U ->
  2 * Z.abs (T * U - 10 * X) <= U ->
  2 ^ 40 * Z.abs (T * t - 1000 * a) <= (2 ^ 39 + 1) * t.
Proof.
  intros Ht HU H1 Hc H2 Hj H3.
  assert (Heq : U * (T * t - 1000 * a)
                = (T * U - 10 * X) * t + 10 * (X - 100 * Rq) * t
                  + 1000 * (Rq * t - a * U)) by ring.
  set (A := T * U - 10 * X) in *. set (B := X - 100 * Rq) in *.
  set (C := Rq * t - a * U) in *. set (W := T * t - 1000 * a) in *.
  assert (HA : Z.abs (A * t) = Z.abs A * t) by (rewrite Z.abs_mul; f_equal; lia).
  assert (HB : Z.abs (10 * B * t) = 10 * Z.abs B * t).
  { rewrite !Z.abs_mul. rewrite (Z.abs_eq t), (Z.abs_eq 10) by lia. reflexivity. }
  assert (HW : U * Z.abs W = Z.abs (U * W)).
  { rewrite Z.abs_mul, (Z.abs_eq U) by lia. reflexivity. }
  assert (Hsum : U * Z.abs W <= Z.abs A * t + 10 * Z.abs B * t + 1000 * Z.abs C).
  { rewrite HW, Heq, <- HA, <- HB. lia. }
  assert (Hc0 : 0 <= c) by (pose proof (Z.abs_nonneg C); nia).
  assert (Hj0 : 0 <= j0) by (pose proof (Z.abs_nonneg B); lia).
  apply Z.mul_le_mono_pos_l with (p := 2 * U); [lia|].
  change (2 ^ 40) with 1099511627776 in *. change (2 ^ 39) with 549755813888 in *.
  change (2 ^ 51) with 2251799813685248 in *. change (2 ^ 46) with 70368744177664 in *.
  assert (HBt : Z.abs B * t <= j0 * t) by nia.
  assert (HAt : 2 * (Z.abs A * t) <= U * t) by nia.
  assert (HCt : 2251799813685248 * (c * t) <= U * t) by nia.
  assert (HJt : 70368744177664 * (j0 * t) <= U * t) by nia.
  assert (HUW : 0 <= U * Z.abs W) by (pose proof (Z.abs_nonneg W); nia).
  nia.
Qed.

Lemma digits_value_app (s1 s2 : string) (acc : Z) :
  digits_value acc (s1 ++ s2) = digits_value (digits_value acc s1) s2.
Proof. revert acc. induction s1 as [|c r IH]; intros acc; cbn; [reflexivity | apply IH]. Qed.

Lemma digits_value_uint_acc (d : Decimal.uint) (acc : positive) :
  digits_value (Z.pos acc) (NilEmpty.string_of_uint d) = Z.pos (Pos.of_uint_acc d acc).
Proof.
  revert acc. induction d; intros acc; cbn [NilEmpty.string_of_uint digits_value Pos.of_uint_acc];
    try reflexivity; rewrite <- IHd; f_equal;
    rewrite ?Pos2Z.inj_add, ?Pos2Z.inj_mul;
    match goal with
    | |- context [N_of_ascii ?c] =>
        let v := eval vm_compute in (Z.of_N (N_of_ascii c)) in
        change (Z.of_N (N_of_ascii c)) with v
    end; lia.
Qed.

Lemma digits_value_uint (d : Decimal.uint) :
  digits_value 0 (NilEmpty.string_of_uint d) = Z.of_N (Pos.of_uint d).
Proof.
  induction d; cbn [NilEmpty.string_of_uint digits_value Pos.of_uint];
    try reflexivity; try exact IHd;
    cbn [Z.of_N]; rewrite <- digits_value_uint_acc; reflexivity.
Qed.

(** The decimal numeral of a non-negative integer writes that integer. *)
Lemma digits_value_of_int (n : Z) : 0 <= n -> digits_value 0 (PyStr.of_int n) = n.
Proof.
  intros Hn. unfold PyStr.of_int. destruct n as [|p|p]; [reflexivity| |lia].
  cbn [Z.to_int NilZero.string_of_int]. unfold NilZero.string_of_uint.
  pose proof (DecimalPos.Unsigned.to_uint_nonnil p) as Hnn.
  pose proof (digits_value_uint (Pos.to_uint p)) as H.
  rewrite DecimalPos.Unsigned.of_to in H. cbn [Z.of_N] in H.
  destruct (Pos.to_uint p); [congruence | exact H ..].
Qed.

Lemma string_of_uint_digits (d : Decimal.uint) :
  all_digits (NilEmpty.string_of_uint d) = true.
Proof. induction d; cbn; assumption || reflexivity. Qed.

Lemma str_of_int_digits (n : Z) :
  0 <= n -> all_digits (PyStr.of_int n) = true /\ PyStr.of_int n <> EmptyString.
Proof.
  intros Hn. unfold PyStr.of_int. destruct n as [|p|p]; [| |lia].
  - split; [reflexivity | discriminate].
  - cbn [Z.to_int NilZero.string_of_int]. unfold NilZero.string_of_uint.
    destruct (Pos.to_uint p) eqn:E;
      try (split; [exact (string_of_uint_digits (_ u)) | discriminate]).
    split; [reflexivity | discriminate].
Qed.

Lemma str_of_int_one_digit (n : Z) :
  0 <= n < 10 ->
  exists d, PyStr.of_int n = String d EmptyString /\ is_digit d = true.
Proof.
  intros Hn. rewrite <- (Z2Nat.id n) by lia.
  assert (Hk : (Z.to_nat n < 10)%nat) by lia.
  destruct (Z.to_nat n) as [|[|[|[|[|[|[|[|[|[|k]]]]]]]]]];
    try lia; eexists; split; reflexivity.
Qed.

(** The rate of [a] out of [t]: the quotient, its product with 100 and
    the tenths that the format prints, which are the nearest to the
    product and close to [1000 * a / t]. *)
Lemma success_rate_value (a t : Z) :
  0 <= a <= t -> 0 < t ->
  exists q p N k T,
    PyFloat.int_truediv a t = Ret q
    /\ PyFloat.mul_int q 100 = Ret p
    /\ float_is p N k /\ 0 < k
    /\ nearest_even T (10 * N) (2 ^ k)
    /\ PyFloat.format_1f p
       = PyStr.of_int (T / 10) ++ "." ++ PyStr.of_int (T mod 10)
    /\ 0 <= T
    /\ 2 ^ 40 * Z.abs (T * t - 1000 * a) <= (2 ^ 39 + 1) * t.
Proof.
  intros Ha Ht.
  destruct (int_truediv_value a t Ha Ht) as (q & N & k & Hq & Hfq & Hk & HN & Hdiv).
  destruct (mul_100_value q N k Hfq Hk HN)
    as (p & N' & k' & j & Hp & Hfp & HN' & Hk' & Hj & Hmul).
  set (T := PyFloat.div_half_even (10 * N') (2 ^ k')).
  assert (Hpk' : 0 < 2 ^ k') by (apply Z.pow_pos_nonneg; lia).
  pose proof (div_half_even_spec (10 * N') (2 ^ k') Hpk') as Hr. fold T in Hr.
  exists q, p, N', k', T. split; [exact Hq|]. split; [exact Hp|].
  split; [exact Hfp|]. split; [lia|]. split; [exact Hr|].
  split; [exact (format_1f_value p N' k' Hfp (proj1 Hk'))|].
  split; [apply div_half_even_nonneg; lia|].
  set (g := 2 ^ (k + 46 - k')) in *.
  assert (Hg : 0 < g) by (apply Z.pow_pos_nonneg; lia).
  assert (HU : 2 ^ (k + 46) = 2 ^ k' * g).
  { unfold g. rewrite <- Z.pow_add_r by lia. f_equal. lia. }
  assert (HU' : 2 ^ (k + 46) = 2 ^ k * 2 ^ 46) by (apply Z.pow_add_r; lia).
  assert (Hpk : 0 < 2 ^ k) by (apply Z.pow_pos_nonneg; lia).
  apply (tenths_close a t (2 ^ (k + 46)) (2 ^ 46) (2 ^ j) (N * 2 ^ 46) (N' * g) T).
  - exact Ht.
  - apply Z.pow_pos_nonneg; lia.
  - rewrite HU'.
    replace (N * 2 ^ 46 * t - a * (2 ^ k * 2 ^ 46))
      with ((N * t - a * 2 ^ k) * 2 ^ 46) by ring.
    rewrite Z.abs_mul, (Z.abs_eq (2 ^ 46)) by (apply Z.pow_nonneg; lia).
    rewrite (Z.mul_comm (2 ^ 46) t).
    apply Z.mul_le_mono_nonneg_r; [apply Z.pow_nonneg; lia | exact Hdiv].
  - rewrite <- Z.pow_add_r by lia. apply Z.pow_le_mono_r; lia.
  - exact Hmul.
  - rewrite <- Z.pow_add_r by lia. apply Z.pow_le_mono_r; lia.
  - rewrite HU.
    replace (T * (2 ^ k' * g) - 10 * (N' * g))
      with ((T * 2 ^ k' - 10 * N') * g) by ring.
    rewrite Z.abs_mul, (Z.abs_eq g) by lia.
    rewrite Z.mul_assoc.
    apply Z.mul_le_mono_nonneg_r; [lia | exact (proj1 Hr)].
Qed.

(** The line of the rate for [a] out of [t]: the label, digits, a point,
    one digit and the percent sign; the digits, read as a number of
    tenths, are the tenths nearest to the float that the two operations
    give, and within one half (and [2^-40]) of [1000 * a / t]. *)
Lemma success_rate_text_value (a t : Z) :
  0 <= a <= t -> 0 < t ->
  exists q p N k ip d T,
    PyFloat.int_truediv a t = Ret q
    /\ PyFloat.mul_int q 100 = Ret p
    /\ float_is p N k /\ 0 < k
    /\ nearest_even T (10 * N) (2 ^ k)
    /\ success_rate_text a t
       = Ret ("Success Rate    : " ++ ip ++ "." ++ String d "%")
    /\ all_digits ip = true /\ ip <> "" /\ is_digit d = true
    /\ digits_value 0 (ip ++ String d "") = T
    /\ 2 ^ 40 * Z.abs (T * t - 1000 * a) <= (2 ^ 39 + 1) * t.
Proof.
  intros Ha Ht.
  destruct (success_rate_value a t Ha Ht)
    as (q & p & N & k & T & Hq & Hp & Hfp & Hk & Hnear & Hfmt & HT & Hclose).
  destruct (str_of_int_digits (T / 10)) as [Hd Hne]; [apply Z.div_pos; lia|].
  destruct (str_of_int_one_digit (T mod 10)) as (d & Hd1 & Hdd);
    [apply Z.mod_pos_bound; lia|].
  exists q, p, N, k, (PyStr.of_int (T / 10)), d, T.
  split; [exact Hq|]. split; [exact Hp|]. split; [exact Hfp|].
  split; [exact Hk|]. split; [exact Hnear|].
  split.
  { unfold success_rate_text.
    assert (E : (0 <? t) = true) by (apply Z.ltb_lt; lia).
    rewrite E, Hq, Hp, Hfmt, Hd1. f_equal. f_equal.
    rewrite !PyStrFacts.append_assoc. reflexivity. }
  split; [exact Hd|]. split; [exact Hne|]. split; [exact Hdd|].
  split; [|exact Hclose].
  rewrite digits_value_app, <- Hd1, digits_value_of_int by (apply Z.div_pos; lia).
  pose proof (digits_value_of_int (T mod 10)) as H1.
  rewrite Hd1 in H1 |- *. cbn [digits_value] in H1 |- *.
  pose proof (Z.div_mod T 10 ltac:(lia)).
  pose proof (Z.mod_pos_bound T 10 ltac:(lia)). lia.
Qed.

Lemma display_summary_prints (t : totals) (text : string) (out : list string) :
  success_rate_text (total_active t) (total_all t) = Ret text ->
  display_summary t out
  = (Ret tt, (out ++ summary_head t ++ [(text ++ NL)%string; summary_foot])%list).
Proof.
  intros Htext.
  unfold display_summary, bind, print, print_end, modify, of_res.
  rewrite Htext. unfold summary_head, summary_foot.
  repeat rewrite <- app_assoc. reflexivity.
Qed.

(** The summary, for sums of which the active part is within the
    total. *)
Lemma display_summary_rate (t : totals) (out : list string) :
  0 <= total_active t <= total_all t ->
  exists rate,
    display_summary t out
    = (Ret tt, (out ++ summary_head t ++ [(rate ++ NL)%string; summary_foot])%list)
    /\ success_rate_text (total_active t) (total_all t) = Ret rate
    /\ (total_all t = 0 ->
        rate = "0%"
        /\ PyFloat.int_truediv (total_active t) (total_all t)
           = Raise ZeroDivisionError)
    /\ (0 < total_all t ->
        exists q p N k ip d T,
          PyFloat.int_truediv (total_active t) (total_all t) = Ret q
          /\ PyFloat.mul_int q 100 = Ret p
          /\ float_is p N k /\ 0 < k
          /\ nearest_even T (10 * N) (2 ^ k)
          /\ rate = ("Success Rate    : " ++ ip ++ "." ++ String d "%")%string
          /\ all_digits ip = true /\ ip <> "" /\ is_digit d = true
          /\ digits_value 0 (ip ++ String d "") = T
          /\ 2 ^ 40 * Z.abs (T * total_all t - 1000 * total_active t)
             <= (2 ^ 39 + 1) * total_all t)
    /\ (total_all t = 10 -> total_active t = 7 ->
        rate = "Success Rate    : 70.0%").
Proof.
  intros Ha.
  destruct (Z.eq_dec (total_all t) 0) as [Hz | Hnz].
  - exists "0%". split; [|split; [|split; [|split]]].
    + apply display_summary_prints. rewrite Hz. reflexivity.
    + rewrite Hz. reflexivity.
    + intros _. split; [reflexivity|]. rewrite Hz. reflexivity.
    + lia.
    + lia.
  - destruct (success_rate_text_value (total_active t) (total_all t) Ha ltac:(lia))
      as (q & p & N & k & ip & d & T & Hq & Hp & Hfp & Hk & Hnear & Htext
          & Hip & Hne & Hd & HT & Hclose).
    eexists. split; [apply display_summary_prints, Htext|].
    split; [exact Htext|]. split; [lia|]. split.
    + intros _. exists q, p, N, k, ip, d, T.
      split; [exact Hq|]. split; [exact Hp|]. split; [exact Hfp|].
      split; [exact Hk|]. split; [exact Hnear|]. split; [reflexivity|].
      split; [exact Hip|]. split; [exact Hne|]. split; [exact Hd|].
      split; [exact HT | exact Hclose].
    + intros H10 H7. rewrite H10, H7 in Htext.
      assert (H : success_rate_text 7 10 = Ret "Success Rate    : 70.0%")
        by (vm_compute; reflexivity).
      rewrite H in Htext. congruence.
Qed.

Lemma display_row_run (t : totals) (r : PlatformResult) (out : list string) :
  exists row, display_row t r out = (Ret (add_result t r), (out ++ row)%list).
Proof.
  unfold display_row, bind, print, print_end, modify, ret.
  destruct (0 <? error r); eexists; repeat rewrite <- app_assoc; reflexivity.
Qed.

Lemma display_rows_run (all_results : list PlatformResult) (t : totals)
    (out : list string) :
  exists rows,
    display_rows t all_results out
    = (Ret (fold_left add_result all_results t), (out ++ rows)%list).
Proof.
  revert t out. induction all_results as [|r rest IH]; intros t out.
  - exists []. rewrite app_nil_r. reflexivity.
  - cbn [display_rows fold_left]. unfold bind at 1.
    destruct (display_row_run t r out) as (row & ->).
    destruct (IH (add_result t r) (out ++ row)%list) as (rows & ->).
    exists (row ++ rows)%list. rewrite app_assoc. reflexivity.
Qed.

(** [display_results] prints the title, the rows, then the summary of
    the sums over all platforms. *)
Lemma display_results_run (all_results : list PlatformResult)
    (out : list string) :
  exists before,
    display_results all_results out
    = display_summary (sum_results all_results) (out ++ before)%list.
Proof.
  unfold display_results, bind at 1 2 3, print, print_end, modify.
  unfold bind.
  match goal with
  | |- context [display_rows ?t all_results ?o] =>
      destruct (display_rows_run all_results t o) as (rows & ->)
  end.
  eexists. unfold sum_results. repeat rewrite <- app_assoc. reflexivity.
Qed.

(** [display_results] on sums of which the active part is within the
    total: it returns, and the summary holds the line of the rate. *)
Lemma display_results_prints (all_results : list PlatformResult)
    (out : list string) :
  let t := sum_results all_results in
  0 <= total_active t <= total_all t ->
  exists before rate,
    display_results all_results out
    = (Ret tt, (out ++ before ++ summary_head t
                ++ [(rate ++ NL)%string; summary_foot])%list)
    /\ success_rate_text (total_active t) (total_all t) = Ret rate.
Proof.
  intros t Ha.
  destruct (display_results_run all_results out) as (before & Hrun).
  destruct (display_summary_rate t (out ++ before)%list Ha)
    as (rate & Hsum & Htext & _).
  exists before, rate. split; [|exact Htext].
  rewrite Hrun. fold t. rewrite Hsum, <- app_assoc. reflexivity.
Qed.

(** C8: in the final summary that [display_results] prints, when the
    aggregate total is greater than zero the line of the success rate is
    the label followed by active/total*100 with exactly one decimal
    digit: digits, a point, one digit and the percent sign.  The digits,
    read as a number [T] of tenths, are the tenths nearest to the float
    [p] that the division and the product give (the even ones when [p]
    lies half-way), and they lie within one half (and [2^-40], for the
    error of the two float operations) of 1000*active/total; 7 active of
    10 prints 70.0%.  When the aggregate total is zero the line is the
    literal 0% and the division, which would raise, is not performed. *)
Theorem display_results_success_rate (all_results : list PlatformResult)
    (out : list string) :
  let t := sum_results all_results in
  0 <= total_active t <= total_all t ->
  exists before rate,
    display_results all_results out
    = (Ret tt, (out ++ before ++ summary_head t
                ++ [(rate ++ NL)%string; summary_foot])%list)
    /\ (total_all t = 0 ->
        rate = "0%"
        /\ PyFloat.int_truediv (total_active t) (total_all t)
           = Raise ZeroDivisionError)
    /\ (0 < total_all t ->
        exists q p N k ip d T,
          PyFloat.int_truediv (total_active t) (total_all t) = Ret q
          /\ PyFloat.mul_int q 100 = Ret p
          /\ float_is p N k /\ 0 < k
          /\ nearest_even T (10 * N) (2 ^ k)
          /\ rate = ("Success Rate    : " ++ ip ++ "." ++ String d "%")%string
          /\ all_digits ip = true /\ ip <> "" /\ is_digit d = true
          /\ digits_value 0 (ip ++ String d "") = T
          /\ 2 ^ 40 * Z.abs (T * total_all t - 1000 * total_active t)
             <= (2 ^ 39 + 1) * total_all t)
    /\ (total_all t = 10 -> total_active t = 7 ->
        rate = "Success Rate    : 70.0%").
Proof.
  intros t Ha.
  destruct (display_results_run all_results out) as (before & Hrun).
  destruct (display_summary_rate t (out ++ before)%list Ha)
    as (rate & Hsum & _ & Hrest).
  exists before, rate. split; [|exact Hrest].
  rewrite Hrun. fold t. rewrite Hsum, <- app_assoc. reflexivity.
Qed.

Lemma display_results_success_rate_witness :
  exists before rate,
    display_results [mkResult "A" 4 3 1 []; mkResult "B" 6 4 2 []] []
    = (Ret tt, (before ++ summary_head (mkTotals 10 7 3)
                ++ [(rate ++ NL)%string; summary_foot])%list)
    /\ rate = "Success Rate    : 70.0%".
Proof.
  destruct (display_results_success_rate
              [mkResult "A" 4 3 1 []; mkResult "B" 6 4 2 []] [])
    as (before & rate & Hrun & _ & _ & H70); [cbn; lia|].
  exists before, rate. split; [exact Hrun | apply H70; reflexivity].
Defined.

(** ** The scenarios of the specification, run on the model *)

(** Two platforms, one sentinel and one live url: one error, one active,
    and a success rate of 50.0%. *)
Example scenario_two_platforms :
  let env := mkEnv ["hsc.py"; "links.txt"]
               (fun _ => Opened ["A : 1"; "> unavailable"; "B : 1";
                                 "> https://ok.example"] None)
               (fun _ _ _ => Response 200) (fun _ => []) (Line "n") in
  fst (run env) = 0
  /\ In ("Success Rate    : 50.0%" ++ NL)%string (snd (run env)).
Proof. vm_compute. split; [reflexivity|]. tauto. Qed.

(** A header without links gives an empty list, checked without any
    probe: the counters are all zero. *)
Example scenario_empty_platform :
  parse_lines ([], None) ["A : 0"] = Ret ([("A", [])], Some "A")
  /\ fst (check_platform_links (fun _ _ => Fails Timeout) [] "A" [] [])
     = Ret (mkResult "A" 0 0 0 []).
Proof. split; reflexivity. Qed.

(** A link line before any header is dropped; backticks are removed. *)
Example scenario_parser :
  parse_lines ([], None) ["> early"; "A : 2"; "> ```https://a.example```"; "  > b.example  "]
  = Ret ([("A", ["https://a.example"; "b.example"])], Some "A").
Proof. reflexivity. Qed.

(** The [.1f] format rounds to nearest, ties to even, on the exact value
    of the float. *)
Example scenario_rates :
  success_rate_text 1 3 = Ret "Success Rate    : 33.3%"
  /\ success_rate_text 2 3 = Ret "Success Rate    : 66.7%"
  /\ success_rate_text 1 8 = Ret "Success Rate    : 12.5%"
  /\ success_rate_text 5 5 = Ret "Success Rate    : 100.0%"
  /\ success_rate_text 0 4 = Ret "Success Rate    : 0.0%"
  /\ success_rate_text 1 400 = Ret "Success Rate    : 0.2%"
  /\ success_rate_text 3 400 = Ret "Success Rate    : 0.8%".
Proof. vm_compute. repeat split. Qed.

(** Beyond [2^53] the quotient is still that of the two integers, rounded
    once; a quotient too large for a float raises, and a product too
    large is an infinity. *)
Example scenario_large_counts :
  success_rate_text 21740235829920356 55959422985637985
  = Ret "Success Rate    : 38.8%"
  /\ success_rate_text (2 ^ 1024) 1
     = Raise (OverflowError "integer division result too large for a float")
  /\ success_rate_text (2 ^ 1023) 1 = Ret "Success Rate    : inf%".
Proof. vm_compute. repeat split. Qed.

(** * Further properties of the program *)

Lemma rstrip_cons_nonspace (c : ascii) (r : string) :
  PyStr.isspace c = false ->
  PyStr.rstrip (String c r) = String c (PyStr.rstrip r).
Proof.
  intros Hc. cbn [PyStr.rstrip]. rewrite Hc. destruct (PyStr.rstrip r); reflexivity.
Qed.

Lemma strip_cons_nonspace (c : ascii) (r : string) :
  PyStr.isspace c = false ->
  PyStr.strip (String c r) = String c (PyStr.rstrip r).
Proof.
  intros Hc. unfold PyStr.strip. cbn [PyStr.lstrip]. rewrite Hc.
  apply rstrip_cons_nonspace, Hc.
Qed.

Lemma lstrip_rstrip_comm (s : string) :
  PyStr.lstrip (PyStr.rstrip s) = PyStr.rstrip (PyStr.lstrip s).
Proof.
  induction s as [|c r IH]; [reflexivity|].
  destruct (PyStr.isspace c) eqn:Hc.
  - cbn [PyStr.lstrip PyStr.rstrip]. rewrite Hc, <- IH.
    destruct (PyStr.rstrip r) as [|d r'] eqn:Er; [reflexivity|].
    cbn [PyStr.lstrip]. rewrite Hc. reflexivity.
  - rewrite rstrip_cons_nonspace by exact Hc.
    cbn [PyStr.lstrip]. rewrite Hc.
    symmetry. apply rstrip_cons_nonspace, Hc.
Qed.

Lemma strip_rstrip (s : string) : PyStr.strip (PyStr.rstrip s) = PyStr.strip s.
Proof.
  unfold PyStr.strip. rewrite lstrip_rstrip_comm. apply PyStrFacts.rstrip_idem.
Qed.

Lemma lstrip_idem (s : string) : PyStr.lstrip (PyStr.lstrip s) = PyStr.lstrip s.
Proof. apply PyStrFacts.lstrip_fixed, PyStrFacts.lstrip_no_lead. Qed.

Lemma strip_lstrip (s : string) : PyStr.strip (PyStr.lstrip s) = PyStr.strip s.
Proof. unfold PyStr.strip. rewrite lstrip_idem. reflexivity. Qed.

(** A trimmed string is left alone by both one-sided trims. *)
Lemma strip_fixed_sides (u : string) :
  PyStr.strip u = u -> PyStr.lstrip u = u /\ PyStr.rstrip u = u.
Proof.
  intros H.
  assert (Hl : PyStr.lstrip u = u).
  { apply PyStrFacts.lstrip_fixed. rewrite <- H. unfold PyStr.strip.
    apply PyStrFacts.rstrip_no_lead, PyStrFacts.lstrip_no_lead. }
  split; [exact Hl|]. unfold PyStr.strip in H. rewrite Hl in H. exact H.
Qed.

Lemma has_scheme_starts_h (url : string) :
  has_scheme url = true -> exists r, url = String "h" r.
Proof.
  unfold has_scheme, PyStr.startswith. destruct url as [|c r]; [discriminate|].
  cbn [String.prefix]. destruct (ascii_dec "h" c) as [<- | Hne]; [eauto|].
  discriminate.
Qed.

Lemma has_scheme_not_skipped (url : string) :
  has_scheme url = true -> skipped url = false.
Proof.
  intros H. destruct (has_scheme_starts_h url H) as (r & ->).
  unfold skipped. rewrite strip_cons_nonspace by reflexivity. reflexivity.
Qed.

(** ** More on [check_url] *)

Lemma check_url_with_scheme (net : transport) (url : string) (timeout : Z) :
  has_scheme url = true ->
  exists b rest,
    check_url net url timeout
    = (Ret (url, b), head_request url timeout :: rest)
    /\ Forall (fun r => req_url r = url) rest.
Proof.
  intros Hsc. rewrite check_url_cases, (has_scheme_not_skipped url Hsc).
  unfold probed_url. rewrite Hsc. cbv zeta.
  destruct (net _) as [c|k].
  - destruct (400 <=? c).
    + destruct (net _); eexists _, _; (split; [reflexivity|]);
        repeat constructor.
    + eexists _, _; split; [reflexivity | constructor].
  - eexists _, _; split; [reflexivity | constructor].
Qed.

(** X1: a url that already starts with [http://] or [https://] passes the
    guard and is probed and returned as it is. *)
Theorem check_url_keeps_scheme (net : transport) (url : string) (timeout : Z) :
  has_scheme url = true ->
  exists b rest,
    check_url net url timeout
    = (Ret (url, b), head_request url timeout :: rest)
    /\ Forall (fun r => req_url r = url) rest.
Proof. exact (check_url_with_scheme net url timeout). Qed.

Lemma check_url_keeps_scheme_witness :
  exists b rest,
    check_url net_head404_get200 "http://example.com" 10
    = (Ret ("http://example.com", b), head_request "http://example.com" 10 :: rest)
    /\ Forall (fun r => req_url r = "http://example.com") rest.
Proof.
  apply (check_url_keeps_scheme net_head404_get200 "http://example.com" 10).
  reflexivity.
Defined.

(** X2: one call sends at most two requests, and each of them goes to
    the probed url with the timeout given, redirects followed and the
    fixed User-Agent. *)
Theorem check_url_requests (net : transport) (url : string) (timeout : Z) :
  (List.length (snd (check_url net url timeout)) <= 2)%nat
  /\ Forall (fun r => req_url r = probed_url url
                      /\ req_timeout r = timeout
                      /\ req_allow_redirects r = true
                      /\ req_user_agent r = USER_AGENT)
       (snd (check_url net url timeout)).
Proof.
  rewrite check_url_cases. destruct (skipped url).
  - cbn. split; [lia | constructor].
  - cbv zeta. destruct (net _) as [c|k].
    + destruct (400 <=? c).
      * destruct (net _); cbn [snd List.length]; (split; [lia|]);
          repeat constructor.
      * cbn [snd List.length]. split; [lia|]. repeat constructor.
    + cbn [snd List.length]. split; [lia|]. repeat constructor.
Qed.

Lemma probed_url_not_skipped (url : string) :
  skipped url = false -> skipped (probed_url url) = false.
Proof.
  intros H. unfold probed_url. destruct (has_scheme url) eqn:E; [exact H|].
  apply has_scheme_not_skipped. destruct url; reflexivity.
Qed.

Lemma probed_url_idem (url : string) :
  probed_url (probed_url url) = probed_url url.
Proof.
  unfold probed_url at 1. rewrite probed_url_has_scheme. reflexivity.
Qed.

(** X3: the url that [check_url] returns for an input that passes the
    guard is a fixed point: given back to [check_url], it passes the guard
    again, is probed unchanged and is returned unchanged. *)
Theorem check_url_result_stable (net net' : transport) (url : string)
    (timeout : Z) (u : string) (b : bool) :
  skipped url = false ->
  fst (check_url net url timeout) = Ret (u, b) ->
  skipped u = false
  /\ exists b' rest,
       check_url net' u timeout = (Ret (u, b'), head_request u timeout :: rest)
       /\ Forall (fun r => req_url r = u) rest.
Proof.
  intros Hsk Hres.
  assert (Hu : u = probed_url url).
  { rewrite check_url_cases, Hsk in Hres. cbv zeta in Hres.
    destruct (net _) as [c|k]; [destruct (400 <=? c); [destruct (net _)|]|];
      cbn [fst] in Hres; congruence. }
  subst u. split; [apply probed_url_not_skipped, Hsk|].
  apply check_url_with_scheme, probed_url_has_scheme.
Qed.

Lemma check_url_result_stable_witness :
  skipped "https://example.com" = false
  /\ exists b' rest,
       check_url (fun _ => Fails Timeout) "https://example.com" 10
       = (Ret ("https://example.com", b'),
          head_request "https://example.com" 10 :: rest)
       /\ Forall (fun r => req_url r = "https://example.com") rest.
Proof.
  apply (check_url_result_stable (fun _ => Response 200) (fun _ => Fails Timeout)
           "example.com" 10 "https://example.com" true); reflexivity.
Defined.

Lemma keys_set {V} (k : string) (v : V) (d : PyDict.t V) :
  map fst (PyDict.set k v d) = add_key (map fst d) k.
Proof.
  unfold add_key. induction d as [|[k' v'] r IH]; [reflexivity|].
  cbn [PyDict.set map fst existsb].
  destruct (String.eqb k k') eqn:E.
  - apply String.eqb_eq in E. subst k'. reflexivity.
  - cbn [orb map fst]. rewrite IH.
    destruct (existsb (String.eqb k) (map fst r)); reflexivity.
Qed.

Lemma keys_update {V} (k : string) (f : V -> V) (d d' : PyDict.t V) :
  PyDict.update k f d = Some d' -> map fst d' = map fst d.
Proof.
  revert d'. induction d as [|[k' v'] r IH]; intros d'; [discriminate|].
  cbn [PyDict.update]. destruct (String.eqb k k').
  - intros [= <-]. reflexivity.
  - destruct (PyDict.update k f r) as [r'|]; [|discriminate].
    intros [= <-]. cbn [map fst]. rewrite (IH r' eq_refl). reflexivity.
Qed.

Lemma existsb_eqb_In (k : string) (ks : list string) :
  existsb (String.eqb k) ks = true <-> In k ks.
Proof.
  rewrite existsb_exists. split.
  - intros (x & Hx & E). apply String.eqb_eq in E. subst x. exact Hx.
  - intros H. exists k. split; [exact H | apply String.eqb_refl].
Qed.

Lemma add_key_NoDup (ks : list string) (k : string) :
  NoDup ks -> NoDup (add_key ks k).
Proof.
  intros H. unfold add_key. destruct (existsb (String.eqb k) ks) eqn:E; [exact H|].
  apply NoDup_app; [exact H | repeat constructor; intros [] |].
  intros x Hx [<- | []].
  apply existsb_eqb_In in Hx. congruence.
Qed.

(** The keys after one line: a header adds its name, other lines add
    nothing. *)
Lemma parse_line_keys (st st' : parse_state) (raw : string) :
  parse_line st raw = Ret st' ->
  map fst (fst st')
  = if is_header raw then add_key (map fst (fst st)) (header_name raw)
    else map fst (fst st).
Proof.
  destruct st as [d c]. cbn [fst].
  destruct (line_kinds raw) as [Hh | [[Hh Hk] | [Hh Hk]]]; rewrite Hh.
  - rewrite (parse_line_header _ _ _ Hh). intros [= <-]. apply keys_set.
  - destruct (current_truthy c) eqn:Hc.
    + destruct c as [cur|]; [|discriminate]. cbn in Hc.
      rewrite (parse_line_kept _ _ _ Hk Hc).
      destruct (PyDict.update cur _ d) as [d'|] eqn:Hu; [|discriminate].
      intros [= <-]. cbn [fst]. exact (keys_update _ _ _ _ Hu).
    + rewrite (parse_line_no_platform _ _ _ Hh Hc). intros [= <-]. reflexivity.
  - rewrite (parse_line_skip _ _ Hh Hk). intros [= <-]. reflexivity.
Qed.

Lemma parse_lines_keys (lines : list string) (st st' : parse_state) :
  parse_lines st lines = Ret st' ->
  map fst (fst st')
  = fold_left add_key (map header_name (filter is_header lines)) (map fst (fst st)).
Proof.
  revert st. induction lines as [|raw rest IH]; intros st; cbn [parse_lines].
  - intros [= <-]. reflexivity.
  - destruct (parse_line st raw) as [st1|e] eqn:E; [|discriminate].
    intros Hrest. rewrite (IH st1 Hrest), (parse_line_keys _ _ _ E).
    cbn [filter]. destruct (is_header raw); reflexivity.
Qed.

Lemma fold_add_key_NoDup (names ks : list string) :
  NoDup ks -> NoDup (fold_left add_key names ks).
Proof.
  revert ks. induction names as [|n rest IH]; intros ks H; [exact H|].
  cbn [fold_left]. apply IH, add_key_NoDup, H.
Qed.

(** X4: the platform names of the mapping are the names of the headers of
    the file, each once, in the order of their first header. *)
Theorem parse_input_file_keys (fs : filesystem) (filename : string)
    (lines : list string) (out : list string) :
  fs filename = Opened lines None ->
  exists platforms,
    parse_input_file fs filename out = (Ret platforms, out)
    /\ map fst platforms
       = first_occurrences (map header_name (filter is_header lines))
    /\ NoDup (map fst platforms).
Proof.
  intros Hfs.
  destruct (parse_input_file_opened fs filename lines out Hfs)
    as (platforms & cur & Hp & Hret).
  exists platforms. split; [exact Hret|].
  pose proof (parse_lines_keys lines _ _ Hp) as Hk. cbn [fst map] in Hk.
  split; [exact Hk|]. rewrite Hk. apply fold_add_key_NoDup. constructor.
Qed.

Lemma parse_input_file_keys_witness :
  exists platforms,
    parse_input_file (fun _ => Opened ["B : 1"; "> x"; "A : 1"; "B : 2"; "> y"] None)
      "input.txt" []
    = (Ret platforms, [])
    /\ map fst platforms = ["B"; "A"]
    /\ NoDup (map fst platforms).
Proof.
  apply (parse_input_file_keys
           (fun _ => Opened ["B : 1"; "> x"; "A : 1"; "B : 2"; "> y"] None)
           "input.txt" ["B : 1"; "> x"; "A : 1"; "B : 2"; "> y"] []).
  reflexivity.
Defined.

(** Without a header nothing is stored. *)
Lemma parse_lines_no_header (lines : list string) (d : PyDict.t (list string))
    (c : option string) :
  current_truthy c = false ->
  Forall (fun raw => is_header raw = false) lines ->
  parse_lines (d, c) lines = Ret (d, c).
Proof.
  intros Hc. induction 1 as [|raw rest Hh _ IH]; [reflexivity|].
  cbn [parse_lines]. rewrite (parse_line_no_platform d c raw Hh Hc). exact IH.
Qed.

(** The list under the empty name stays empty. *)
Lemma parse_line_no_name (st st' : parse_state) (raw : string) :
  parse_line st raw = Ret st' ->
  no_links_without_name (fst st) -> no_links_without_name (fst st').
Proof.
  destruct st as [d c]. cbn [fst]. unfold no_links_without_name.
  destruct (line_kinds raw) as [Hh | [[Hh Hk] | [Hh Hk]]].
  - rewrite (parse_line_header _ _ _ Hh). intros [= <-] H. cbn [fst].
    destruct (String.eqb (header_name raw) "") eqn:E.
    + apply String.eqb_eq in E. rewrite E.
      right. apply PyDictFacts.get_set_eq.
    + apply String.eqb_neq in E.
      rewrite PyDictFacts.get_set_ne by exact E. exact H.
  - destruct (current_truthy c) eqn:Hc.
    + destruct c as [cur|]; [|discriminate]. cbn in Hc.
      rewrite (parse_line_kept _ _ _ Hk Hc).
      destruct (PyDict.get cur d) as [l|] eqn:Hg.
      * destruct (PyDictFacts.update_present d cur
                    (fun l => (l ++ [link_of_line raw])%list) l Hg)
          as (d' & Hu & _ & Ho).
        rewrite Hu. intros [= <-] H. cbn [fst].
        rewrite Ho; [exact H|]. intros <-. discriminate Hc.
      * destruct (PyDict.update cur _ d) as [d'|] eqn:Hu; [|discriminate].
        intros [= <-] H. cbn [fst].
        exfalso. clear - Hg Hu. revert d' Hu.
        induction d as [|[k v] r IH]; intros d'; [discriminate|].
        cbn [PyDict.get PyDict.update] in *.
        destruct (String.eqb cur k); [discriminate|].
        destruct (PyDict.update cur _ r) as [r'|]; [|discriminate].
        intros _. exact (IH Hg r' eq_refl).
    + rewrite (parse_line_no_platform _ _ _ Hh Hc). intros [= <-]. auto.
  - rewrite (parse_line_skip _ _ Hh Hk). intros [= <-]. auto.
Qed.

Lemma parse_lines_no_name (lines : list string) (st st' : parse_state) :
  parse_lines st lines = Ret st' ->
  no_links_without_name (fst st) -> no_links_without_name (fst st').
Proof.
  revert st. induction lines as [|raw rest IH]; intros st; cbn [parse_lines].
  - intros [= <-]. auto.
  - destruct (parse_line st raw) as [st1|e] eqn:E; [|discriminate].
    intros Hrest H. apply (IH st1 Hrest). exact (parse_line_no_name _ _ _ E H).
Qed.

(** X5: a platform whose name is empty never gets a link: whatever the
    file, the list stored under the empty name is empty. *)
Theorem parse_input_file_empty_name (fs : filesystem) (filename : string)
    (out out' : list string) (platforms : PyDict.t (list string))
    (urls : list string) :
  parse_input_file fs filename out = (Ret platforms, out') ->
  PyDict.get "" platforms = Some urls ->
  urls = [].
Proof.
  intros Hret Hg.
  destruct (parse_input_file_returns _ _ _ _ _ Hret) as (lines & cur & _ & Hp).
  destruct (parse_lines_no_name lines _ _ Hp (or_introl eq_refl)) as [H | H];
    cbn [fst] in H; congruence.
Qed.

Lemma parse_input_file_empty_name_witness : ([] : list string) = [].
Proof.
  apply (parse_input_file_empty_name
           (fun _ => Opened [" : 2"; "> x"; "> y"] None) "input.txt" [] []
           [("", [])] []); reflexivity.
Defined.

Lemma parse_lines_relevant (lines : list string) (st : parse_state) :
  parse_lines st (filter is_relevant lines) = parse_lines st lines.
Proof.
  revert st. induction lines as [|raw rest IH]; intros st; [reflexivity|].
  cbn [filter parse_lines]. unfold is_relevant at 1.
  destruct (line_kinds raw) as [Hh | [[Hh Hk] | [Hh Hk]]]; rewrite Hh, ?Hk;
    cbn [orb parse_lines].
  - destruct (parse_line st raw); [apply IH | reflexivity].
  - destruct (parse_line st raw); [apply IH | reflexivity].
  - rewrite (parse_line_skip _ _ Hh Hk). apply IH.
Qed.

Lemma parse_line_strip (st : parse_state) (raw : string) :
  parse_line st (PyStr.strip raw) = parse_line st raw.
Proof. unfold parse_line. rewrite PyStrFacts.strip_idem. reflexivity. Qed.

Lemma parse_lines_strip (lines : list string) (st : parse_state) :
  parse_lines st (map PyStr.strip lines) = parse_lines st lines.
Proof.
  revert st. induction lines as [|raw rest IH]; intros st; [reflexivity|].
  cbn [map parse_lines]. rewrite parse_line_strip.
  destruct (parse_line st raw); [apply IH | reflexivity].
Qed.

Lemma lstrip_app_nonspace (a : string) (c : ascii) (b : string) :
  PyStr.isspace c = false ->
  PyStr.lstrip (a ++ String c b) = PyStr.lstrip a ++ String c b.
Proof.
  intros Hc. induction a as [|x a IH]; cbn [String.append PyStr.lstrip].
  - rewrite Hc. reflexivity.
  - destruct (PyStr.isspace x); [exact IH | reflexivity].
Qed.

Lemma rstrip_app_nonspace (a : string) (c : ascii) (b : string) :
  PyStr.isspace c = false ->
  PyStr.rstrip (a ++ String c b) = a ++ String c (PyStr.rstrip b).
Proof.
  intros Hc. induction a as [|x a IH]; cbn [String.append].
  - apply rstrip_cons_nonspace, Hc.
  - cbn [PyStr.rstrip]. rewrite IH.
    destruct a; reflexivity.
Qed.

Lemma contains_lstrip (c : ascii) (a : string) :
  PyStr.contains c a = false -> PyStr.contains c (PyStr.lstrip a) = false.
Proof.
  induction a as [|x a IH]; [reflexivity|]. cbn [PyStr.contains PyStr.lstrip].
  intros H. apply orb_false_iff in H as [Hx Ha].
  destruct (PyStr.isspace x); [apply IH, Ha|].
  cbn [PyStr.contains]. rewrite Hx, Ha. reflexivity.
Qed.

Lemma split_first_app (c : ascii) (a b : string) :
  PyStr.contains c a = false ->
  PyStr.split_first c (a ++ String c b) = a.
Proof.
  induction a as [|x a IH]; cbn [String.append PyStr.split_first PyStr.contains].
  - rewrite Ascii.eqb_refl. reflexivity.
  - intros H. apply orb_false_iff in H as [Hx Ha]. rewrite Hx, (IH Ha). reflexivity.
Qed.

Lemma contains_app (c : ascii) (a b : string) :
  PyStr.contains c (a ++ String c b) = true.
Proof.
  induction a as [|x a IH]; cbn [String.append PyStr.contains].
  - rewrite Ascii.eqb_refl. reflexivity.
  - rewrite IH. apply orb_true_r.
Qed.

Lemma strip_header_line (a b : string) :
  PyStr.strip (a ++ String ":" b)
  = PyStr.lstrip a ++ String ":" (PyStr.rstrip b).
Proof.
  unfold PyStr.strip.
  rewrite lstrip_app_nonspace by reflexivity.
  apply rstrip_app_nonspace. reflexivity.
Qed.

(** X6: the platform name of a header is the trimmed text before its
    first colon; what follows the colon (the announced count) plays no
    part. *)
Theorem header_name_before_colon (a b : string) :
  PyStr.contains ":" a = false ->
  PyStr.startswith (PyStr.lstrip a) ">" = false ->
  is_header (a ++ String ":" b) = true
  /\ header_name (a ++ String ":" b) = PyStr.strip a.
Proof.
  intros Hc Hgt. unfold is_header, header_name.
  rewrite strip_header_line. split.
  - rewrite contains_app. cbn [andb].
    unfold PyStr.startswith in *.
    destruct (PyStr.lstrip a) as [|x r]; cbn [String.append String.prefix] in *.
    + reflexivity.
    + destruct (ascii_dec ">" x); [|reflexivity].
      destruct r; discriminate Hgt.
  - rewrite split_first_app by (apply contains_lstrip, Hc).
    apply strip_lstrip.
Qed.

Lemma header_name_before_colon_witness :
  is_header ("  Youtube " ++ String ":" " 2") = true
  /\ header_name ("  Youtube " ++ String ":" " 2") = PyStr.strip "  Youtube ".
Proof.
  apply (header_name_before_colon "  Youtube " " 2"); reflexivity.
Defined.

Lemma replace_backticks_other (c : ascii) (r : string) :
  Ascii.eqb c "`" = false ->
  PyStr.replace_backticks (String c r) = String c (PyStr.replace_backticks r).
Proof.
  destruct c as [[] [] [] [] [] [] [] []]; intros H;
    try discriminate H; reflexivity.
Qed.

Lemma replace_backticks_plain (u : string) :
  no_backtick u = true -> PyStr.replace_backticks u = u.
Proof.
  induction u as [|c r IH]; [reflexivity|]. cbn [no_backtick].
  intros H. apply andb_true_iff in H as [Hc Hr]. apply negb_true_iff in Hc.
  rewrite (replace_backticks_other c r Hc), (IH Hr). reflexivity.
Qed.

Lemma replace_backticks_fenced (u : string) :
  no_backtick u = true -> PyStr.replace_backticks ("```" ++ u ++ "```") = u.
Proof.
  intros H. change ("```" ++ u ++ "```") with (String "`" (String "`" (String "`" (u ++ "```")))).
  cbn [PyStr.replace_backticks].
  induction u as [|c r IH]; [reflexivity|]. cbn [no_backtick] in H.
  apply andb_true_iff in H as [Hc Hr]. apply negb_true_iff in Hc.
  cbn [String.append]. rewrite (replace_backticks_other c _ Hc), (IH Hr). reflexivity.
Qed.

Lemma rstrip_app_space (s : string) (c : ascii) :
  PyStr.isspace c = true ->
  PyStr.rstrip (s ++ String c EmptyString) = PyStr.rstrip s.
Proof.
  intros Hc. induction s as [|x s IH]; cbn [String.append PyStr.rstrip].
  - rewrite Hc. reflexivity.
  - rewrite IH. reflexivity.
Qed.

(** The url of a line that starts with [>]: what follows the [>],
    trimmed, without triple backticks, trimmed again. *)
Lemma link_of_gt_line (rest : string) :
  link_of_line (String ">" rest)
  = PyStr.strip (PyStr.replace_backticks (PyStr.strip rest)).
Proof.
  unfold link_of_line, clean_link.
  rewrite strip_cons_nonspace by reflexivity. cbn [PyStr.tail].
  rewrite strip_rstrip. reflexivity.
Qed.

Lemma strip_padded (u : string) :
  PyStr.strip u = u -> PyStr.strip (" " ++ u ++ NL) = u.
Proof.
  intros H. destruct (strip_fixed_sides u H) as [Hl Hr].
  unfold PyStr.strip. cbn [String.append PyStr.lstrip].
  change (PyStr.isspace " ") with true. cbv iota.
  destruct u as [|c r]; [reflexivity|].
  assert (Hc : PyStr.isspace c = false).
  { cbn [PyStr.lstrip] in Hl. destruct (PyStr.isspace c) eqn:E; [|reflexivity].
    exfalso. pose proof (PyStrFacts.lstrip_no_lead r) as Hn.
    rewrite Hl in Hn. cbn in Hn. congruence. }
  cbn [String.append PyStr.lstrip]. rewrite Hc.
  change (String c (r ++ NL)) with (String c r ++ NL).
  unfold NL. rewrite rstrip_app_space by reflexivity. exact Hr.
Qed.

(** X7: a link line written as in the usage text stores its url as it is:
    for a url that is trimmed, non-empty and free of backticks, the line
    [> url] and the line with the url fenced in triple backticks both
    carry exactly [url]. *)
Theorem link_line_round_trip (u : string) :
  PyStr.strip u = u -> u <> "" -> no_backtick u = true ->
  is_kept_link ("> " ++ u ++ NL) = true
  /\ link_of_line ("> " ++ u ++ NL) = u
  /\ link_of_line ("> " ++ ("```" ++ u ++ "```") ++ NL) = u.
Proof.
  intros Hs Hne Hb.
  assert (H1 : link_of_line ("> " ++ u ++ NL) = u).
  { change ("> " ++ u ++ NL) with (String ">" (" " ++ u ++ NL)).
    rewrite link_of_gt_line, (strip_padded u Hs),
      (replace_backticks_plain u Hb). exact Hs. }
  split; [|split; [exact H1|]].
  - unfold is_kept_link. rewrite H1.
    apply PyStrFacts.truthy_true_iff in Hne. rewrite Hne.
    unfold is_link_line. 
    change ("> " ++ u ++ NL) with (String ">" (" " ++ u ++ NL)).
    rewrite strip_cons_nonspace by reflexivity.
    destruct (PyStr.rstrip (" " ++ u ++ NL)); reflexivity.
  - change ("> " ++ ("```" ++ u ++ "```") ++ NL)
      with (String ">" (" " ++ ("```" ++ u ++ "```") ++ NL)).
    rewrite link_of_gt_line.
    assert (Hf : PyStr.strip ("```" ++ u ++ "```") = "```" ++ u ++ "```").
    { change ("```" ++ u ++ "```") with (String "`" (String "`" (String "`" (u ++ "```")))).
      rewrite strip_cons_nonspace by reflexivity. f_equal.
      rewrite rstrip_cons_nonspace by reflexivity. f_equal.
      rewrite rstrip_cons_nonspace by reflexivity. f_equal.
      rewrite rstrip_app_nonspace by reflexivity. reflexivity. }
    rewrite (strip_padded _ Hf), (replace_backticks_fenced u Hb). exact Hs.
Qed.

Lemma link_line_round_trip_witness :
  is_kept_link ("> " ++ "https://a.example/x" ++ NL) = true
  /\ link_of_line ("> " ++ "https://a.example/x" ++ NL) = "https://a.example/x"
  /\ link_of_line ("> " ++ ("```" ++ "https://a.example/x" ++ "```") ++ NL)
     = "https://a.example/x".
Proof.
  apply (link_line_round_trip "https://a.example/x");
    [reflexivity | discriminate | reflexivity].
Defined.

(** ** More on the platform check *)

Lemma check_url_pair (net : transport) (url : string) :
  fst (check_url net url DEFAULT_TIMEOUT) = Ret (probe_pair net url).
Proof.
  unfold probe_pair.
  destruct (check_url_returns net url DEFAULT_TIMEOUT) as (u & b & ->).
  reflexivity.
Qed.

Lemma submit_all_pairs (nets : transports) (urls : list string) (i : nat) :
  submit_all nets i urls = map Ret (probe_pairs nets i urls).
Proof.
  revert i. induction urls as [|url rest IH]; intros i; [reflexivity|].
  cbn [submit_all probe_pairs map]. rewrite check_url_pair, IH. reflexivity.
Qed.

Lemma take_out_map {A B} (f : A -> B) (k : nat) (l : list A) :
  take_out k (map f l)
  = option_map (fun xr => (f (fst xr), map f (snd xr))) (take_out k l).
Proof.
  revert k. induction l as [|x r IH]; intros k; [destruct k; reflexivity|].
  destruct k as [|k]; cbn [map take_out]; [reflexivity|].
  rewrite IH. destruct (take_out k r) as [[y r']|]; reflexivity.
Qed.

Lemma as_completed_from_map {A B} (f : A -> B) (fuel : nat) (sched : list nat)
    (l : list A) :
  as_completed_from fuel sched (map f l) = map f (as_completed_from fuel sched l).
Proof.
  revert sched l. induction fuel as [|fuel IH]; intros sched l; [reflexivity|].
  cbn [as_completed_from]. rewrite length_map, take_out_map.
  destruct (take_out _ l) as [[x r]|]; [|reflexivity].
  cbn [option_map fst snd map]. rewrite IH. reflexivity.
Qed.

Lemma as_completed_map {A B} (f : A -> B) (sched : list nat) (l : list A) :
  as_completed sched (map f l) = map f (as_completed sched l).
Proof. unfold as_completed. rewrite length_map. apply as_completed_from_map. Qed.

Lemma collect_all_pairs (pairs : list (string * bool)) (r0 : PlatformResult)
    (out : list string) :
  collect_all r0 (map Ret pairs) out
  = (Ret (mkResult (platform r0) (total r0)
            (active r0 + count_active pairs) (error r0 + count_error pairs)
            (links r0 ++ map link_of_pair pairs)%list), out).
Proof.
  revert r0. induction pairs as [|[u b] rest IH]; intros r0.
  - cbn [map collect_all ret]. unfold count_active, count_error. cbn.
    rewrite !Z.add_0_r, app_nil_r. destruct r0; reflexivity.
  - cbn [map collect_all]. unfold bind at 1. unfold collect, bind, of_res.
    destruct b; cbn [ret]; rewrite IH; cbn [platform total active error links];
      unfold count_active, count_error; cbn [filter snd negb List.length map];
      rewrite <- app_assoc; cbn [app]; unfold link_of_pair at 2; cbn [fst snd];
      do 2 f_equal; f_equal; lia.
Qed.

Lemma check_platform_links_run (nets : transports) (sched : list nat)
    (name : string) (urls : list string) (out : list string) :
  check_platform_links nets sched name urls out
  = (Ret (platform_result nets sched name urls),
     (out ++ checking_lines name)%list).
Proof.
  unfold check_platform_links.
  rewrite submit_all_pairs, as_completed_map.
  unfold bind at 1. unfold print_end at 1, modify at 1.
  unfold bind at 1. rewrite collect_all_pairs.
  unfold bind, print, print_end, modify, ret.
  cbn [platform total active error links app].
  unfold platform_result, checking_lines.
  rewrite <- app_assoc. reflexivity.
Qed.

Lemma filter_length_perm {A} (f : A -> bool) (l l' : list A) :
  Permutation l l' ->
  List.length (filter f l) = List.length (filter f l').
Proof.
  induction 1 as [|x l l' _ IH|x y l|l l' l'' _ IH1 _ IH2]; cbn [filter].
  - reflexivity.
  - destruct (f x); cbn [List.length]; congruence.
  - destruct (f x), (f y); reflexivity.
  - congruence.
Qed.

(** X8: the link records are the results of [check_url] on the urls given,
    one record per url, in the order in which the probes complete: up to
    order, exactly the list of the per-url results. *)
Theorem check_platform_links_records (nets : transports) (sched : list nat)
    (name : string) (urls : list string) (out : list string) :
  exists r out',
    check_platform_links nets sched name urls out = (Ret r, out')
    /\ platform r = name
    /\ links r = map link_of_pair (as_completed sched (probe_pairs nets O urls))
    /\ Permutation (links r) (map link_of_pair (probe_pairs nets O urls)).
Proof.
  eexists _, _. split; [apply check_platform_links_run|].
  cbn [platform_result platform links]. unfold platform_result. cbn [platform links].
  repeat split. apply Permutation_map, as_completed_perm.
Qed.

Lemma active_links_of_pairs (pairs : list (string * bool)) :
  List.length (filter is_active_link (map link_of_pair pairs))
  = List.length (filter (fun p => snd p) pairs).
Proof.
  induction pairs as [|[u b] rest IH]; [reflexivity|].
  cbn [map filter]. unfold is_active_link at 1, link_of_pair at 1.
  cbn [link_status_of snd]. destruct b; cbn [List.length]; rewrite IH; reflexivity.
Qed.

(** X9: the two counts do not depend on the completion order: [active] is
    the number of urls whose probe is active, [error] the number of the
    others; and [active] is the number of link records with status
    active. *)
Theorem check_platform_links_counts_by_url (nets : transports)
    (sched : list nat) (name : string) (urls : list string) (out : list string) :
  exists r out',
    check_platform_links nets sched name urls out = (Ret r, out')
    /\ active r = count_active (probe_pairs nets O urls)
    /\ error r = count_error (probe_pairs nets O urls)
    /\ active r = Z.of_nat (List.length (filter is_active_link (links r))).
Proof.
  eexists _, _. split; [apply check_platform_links_run|].
  unfold platform_result. cbn [active error links]. unfold count_active, count_error.
  repeat split.
  - f_equal. apply filter_length_perm, as_completed_perm.
  - f_equal. apply filter_length_perm, as_completed_perm.
  - rewrite active_links_of_pairs. reflexivity.
Qed.

(** ** More on the reports *)

Lemma check_all_run (env : environment) (items : list (string * list string))
    (i : nat) (acc : list PlatformResult) (out : list string) :
  check_all env i items acc out
  = (Ret (acc ++ results_of env i items)%list,
     (out ++ all_checking_lines items)%list).
Proof.
  revert i acc out. induction items as [|[name urls] rest IH]; intros i acc out.
  - cbn. rewrite !app_nil_r. reflexivity.
  - cbn [check_all]. unfold bind. rewrite check_platform_links_run, IH.
    unfold all_checking_lines. cbn [results_of map List.concat fst].
    rewrite <- !app_assoc. reflexivity.
Qed.

Lemma results_of_names (env : environment) (items : list (string * list string))
    (i : nat) :
  map platform (results_of env i items) = map fst items
  /\ map total (results_of env i items)
     = map (fun item => Z.of_nat (List.length (snd item))) items.
Proof.
  revert i. induction items as [|[name urls] rest IH]; intros i; [split; reflexivity|].
  cbn [results_of map fst snd]. destruct (IH (S i)) as [-> ->].
  split; reflexivity.
Qed.

Lemma count_active_error (pairs : list (string * bool)) :
  count_active pairs + count_error pairs = Z.of_nat (List.length pairs).
Proof.
  unfold count_active, count_error.
  induction pairs as [|[u b] rest IH]; [reflexivity|].
  cbn [filter snd negb List.length]. destruct b; cbn [negb List.length]; lia.
Qed.

Lemma probe_pairs_length (nets : transports) (urls : list string) (i : nat) :
  List.length (probe_pairs nets i urls) = List.length urls.
Proof.
  revert i. induction urls as [|u r IH]; intros i; [reflexivity|].
  cbn [probe_pairs List.length]. rewrite IH. reflexivity.
Qed.

Lemma platform_result_sound (nets : transports) (sched : list nat)
    (name : string) (urls : list string) :
  let r := platform_result nets sched name urls in
  active r + error r = total r /\ 0 <= active r /\ 0 <= error r.
Proof.
  unfold platform_result. cbn [active error total].
  rewrite count_active_error,
    (Permutation_length (as_completed_perm sched _)), probe_pairs_length.
  unfold count_active, count_error. lia.
Qed.

Lemma fold_add_result_sums (rs : list PlatformResult) (t : totals) :
  Forall (fun r => active r + error r = total r /\ 0 <= active r /\ 0 <= error r) rs ->
  let t' := fold_left add_result rs t in
  total_all t' - total_all t
  = (total_active t' - total_active t) + (total_error t' - total_error t)
  /\ total_active t <= total_active t'
  /\ total_error t <= total_error t'
  /\ total_all t' = total_all t + fold_right Z.add 0 (map total rs).
Proof.
  intros H. revert t. induction H as [|r rest (Hr & Ha & He) _ IH]; intros t.
  - cbn. lia.
  - cbn [fold_left map fold_right]. specialize (IH (add_result t r)).
    cbn zeta in IH. cbn [add_result total_all total_active total_error] in IH.
    cbv zeta. lia.
Qed.

Lemma results_of_sound (env : environment) (items : list (string * list string))
    (i : nat) :
  Forall (fun r => active r + error r = total r /\ 0 <= active r /\ 0 <= error r)
    (results_of env i items).
Proof.
  revert i. induction items as [|[name urls] rest IH]; intros i; constructor.
  - apply platform_result_sound.
  - apply IH.
Qed.

(** X10: left to run (an interrupt by the user is not part of the
    environment here), the loop of [main] comes to its end whatever the
    probes give, no exception coming out of the checks, and builds one
    result per platform of the mapping, in the mapping's order: each
    carries the platform's name and, as total, the number of its urls. *)
Theorem check_all_results (env : environment)
    (items : list (string * list string)) (out : list string) :
  exists all_results out',
    check_all env O items [] out = (Ret all_results, out')
    /\ map platform all_results = map fst items
    /\ map total all_results
       = map (fun item => Z.of_nat (List.length (snd item))) items.
Proof.
  eexists _, _. split; [apply check_all_run|].
  cbn [app]. apply results_of_names.
Qed.

(** X11: over the results of a run, the sums that the summary prints are
    consistent: the total over all platforms is the number of urls of the
    mapping, and it is the sum of the active and the error totals, both
    non-negative. *)
Theorem check_all_totals (env : environment)
    (items : list (string * list string)) (out : list string) :
  exists all_results out',
    check_all env O items [] out = (Ret all_results, out')
    /\ let t := sum_results all_results in
       total_all t = Z.of_nat (List.length (List.concat (map snd items)))
       /\ total_active t + total_error t = total_all t
       /\ 0 <= total_active t <= total_all t.
Proof.
  eexists _, _. split; [apply check_all_run|]. cbn [app]. cbv zeta.
  pose proof (fold_add_result_sums _ (mkTotals 0 0 0) (results_of_sound env items O)) as H.
  cbv zeta in H. fold (sum_results (results_of env O items)) in H.
  cbn [total_all total_active total_error] in H.
  destruct H as (H1 & H2 & H3 & H4).
  assert (Hsum : fold_right Z.add 0 (map total (results_of env O items))
                 = Z.of_nat (List.length (List.concat (map snd items)))).
  { rewrite (proj2 (results_of_names env items O)).
    clear. induction items as [|[n u] rest IH]; [reflexivity|].
    cbn [map fold_right snd List.concat]. rewrite length_app, IH. lia. }
  lia.
Qed.

Lemma prefix_app (a b : string) : String.prefix a (a ++ b) = true.
Proof.
  induction a as [|c a IH]; cbn; [destruct b; reflexivity|].
  destruct (ascii_dec c c); [exact IH | congruence].
Qed.

Lemma results_of_sums (env : environment) (items : list (string * list string)) :
  let t := sum_results (results_of env O items) in
  total_active t + total_error t = total_all t
  /\ 0 <= total_active t <= total_all t
  /\ total_all t = Z.of_nat (List.length (List.concat (map snd items))).
Proof.
  cbv zeta.
  pose proof (fold_add_result_sums _ (mkTotals 0 0 0) (results_of_sound env items O)) as H.
  cbv zeta in H. fold (sum_results (results_of env O items)) in H.
  cbn [total_all total_active total_error] in H.
  assert (Hsum : fold_right Z.add 0 (map total (results_of env O items))
                 = Z.of_nat (List.length (List.concat (map snd items)))).
  { rewrite (proj2 (results_of_names env items O)).
    clear. induction items as [|[n u] rest IH]; [reflexivity|].
    cbn [map fold_right snd List.concat]. rewrite length_app, IH. lia. }
  lia.
Qed.

(** X12: on the results that the loop of [main] builds, whatever the
    probes gave, the computation of [display_results] cannot fail: the
    division is guarded against a zero total and, the active links being
    at most the total, its quotient fits a float.  After the rows it
    prints the sums over all platforms, the line of the rate and the
    closing rule; the line of the rate is the literal 0% for a mapping
    without urls and starts with the label otherwise. *)
Theorem display_results_total (env : environment)
    (items : list (string * list string)) (out : list string) :
  exists all_results out' before rate,
    check_all env O items [] out = (Ret all_results, out')
    /\ display_results all_results out'
       = (Ret tt, (out' ++ before ++ summary_head (sum_results all_results)
                   ++ [(rate ++ NL)%string; summary_foot])%list)
    /\ (List.concat (map snd items) = [] -> rate = "0%")
    /\ (List.concat (map snd items) <> [] ->
        String.prefix "Success Rate    : " rate = true).
Proof.
  pose proof (results_of_sums env items) as Hsums. cbv zeta in Hsums.
  destruct (display_results_run (results_of env O items)
              (out ++ all_checking_lines items)%list) as (before & Hrun).
  destruct (display_summary_rate (sum_results (results_of env O items))
              ((out ++ all_checking_lines items) ++ before)%list
              (proj1 (proj2 Hsums)))
    as (rate & Hsum & _ & Hzero & Hpos & _).
  pose proof (proj2 (proj2 Hsums)) as Htot.
  eexists _, _, before, rate. split; [apply check_all_run|]. cbn [app].
  split; [rewrite Hrun, Hsum, <- app_assoc; reflexivity|]. split.
  - intros Hnil. apply Hzero. rewrite Htot, Hnil. reflexivity.
  - intros Hne.
    assert (Hlt : 0 < total_all (sum_results (results_of env O items))).
    { rewrite Htot. destruct (List.concat (map snd items)); [congruence | cbn; lia]. }
    destruct (Hpos Hlt) as (q & p & N & k & ip & d & T & _ & _ & _ & _ & _ & -> & _).
    apply prefix_app.
Qed.

Lemma display_links_run (ls : list LinkResult) (i : Z) (out : list string) :
  display_links i ls out = (Ret tt, (out ++ links_lines i ls)%list).
Proof.
  revert i out. induction ls as [|l rest IH]; intros i out.
  - cbn. rewrite app_nil_r. reflexivity.
  - cbn [display_links links_lines]. unfold bind, display_link, print, print_end, modify.
    rewrite IH, <- app_assoc. reflexivity.
Qed.

Lemma display_detailed_rows_run (rs : list PlatformResult) (out : list string) :
  display_detailed_rows rs out
  = (Ret tt, (out ++ List.concat (map platform_detail_lines rs))%list).
Proof.
  revert out. induction rs as [|r rest IH]; intros out.
  - cbn. rewrite app_nil_r. reflexivity.
  - cbn [display_detailed_rows map List.concat]. unfold bind, print, print_end, modify.
    rewrite display_links_run, IH. unfold platform_detail_lines.
    rewrite <- !app_assoc. reflexivity.
Qed.

Lemma display_detailed_results_run (rs : list PlatformResult) (out : list string) :
  display_detailed_results rs out = (Ret tt, (out ++ detail_lines rs)%list).
Proof.
  unfold display_detailed_results, bind, print, print_end, modify.
  rewrite display_detailed_rows_run. unfold detail_lines.
  rewrite <- app_assoc. reflexivity.
Qed.

Lemma links_lines_nth (ls : list LinkResult) (i : Z) (k : nat) :
  nth_error (links_lines i ls) k
  = option_map (link_line (i + Z.of_nat k)) (nth_error ls k).
Proof.
  revert i k. induction ls as [|l rest IH]; intros i k.
  - destruct k; reflexivity.
  - destruct k as [|k]; cbn [links_lines nth_error option_map].
    + rewrite Z.add_0_r. reflexivity.
    + rewrite IH. f_equal. f_equal. lia.
Qed.

Lemma links_lines_length (ls : list LinkResult) (i : Z) :
  List.length (links_lines i ls) = List.length ls.
Proof.
  revert i. induction ls as [|l rest IH]; intros i; [reflexivity|].
  cbn [links_lines List.length]. rewrite IH. reflexivity.
Qed.

(** X13: the detailed report never raises; it writes a title, then for
    every platform two heading lines and one line per link record, and the
    link at position [k] of a platform (from 0) is written with the number
    [k + 1]. *)
Theorem display_detailed_results_lines (all_results : list PlatformResult)
    (out : list string) :
  exists lines,
    display_detailed_results all_results out = (Ret tt, (out ++ lines)%list)
    /\ List.length lines
       = S (fold_right Nat.add O
              (map (fun r => (2 + List.length (links r))%nat) all_results))
    /\ forall result k l,
         In result all_results -> nth_error (links result) k = Some l ->
         In (link_line (Z.of_nat k + 1) l) lines.
Proof.
  exists (detail_lines all_results).
  split; [apply display_detailed_results_run|]. split.
  - unfold detail_lines. cbn [List.length]. f_equal.
    induction all_results as [|r rest IH]; [reflexivity|].
    cbn [map List.concat fold_right]. rewrite length_app, IH.
    unfold platform_detail_lines. cbn [List.length].
    rewrite links_lines_length. reflexivity.
  - intros result k l Hin Hk. unfold detail_lines. right.
    apply in_concat. exists (platform_detail_lines result).
    split; [apply in_map, Hin|].
    unfold platform_detail_lines. right. right.
    apply (nth_error_In _ k).
    rewrite links_lines_nth, Hk. cbn [option_map]. f_equal. f_equal. lia.
Qed.

(** ** More on [main] *)

Lemma parse_input_file_ok (fs : filesystem) (filename : string)
    (lines : list string) (platforms : PyDict.t (list string))
    (cur : option string) (out : list string) :
  fs filename = Opened lines None ->
  parse_lines ([], None) lines = Ret (platforms, cur) ->
  parse_input_file fs filename out = (Ret platforms, out).
Proof.
  intros Hfs Hp. unfold parse_input_file, read_platforms. rewrite Hfs, Hp.
  reflexivity.
Qed.

(** A run whose file parses to at least one platform, up to the prompt
    and past it. *)
Lemma main_run (env : environment) (prog filename : string)
    (more : list string) (lines : list string)
    (platforms : PyDict.t (list string)) (cur : option string) :
  argv env = prog :: filename :: more ->
  fs env filename = Opened lines None ->
  parse_lines ([], None) lines = Ret (platforms, cur) ->
  platforms <> [] ->
  exists middle,
    let before := (preamble filename ++ middle)%list in
    let all_results := results_of env O platforms in
    main env []
    = match stdin env with
      | Line answer =>
          (Ret tt,
           (before ++ [PROMPT]
            ++ (if String.eqb (PyStr.lower answer) "y"
                then detail_lines all_results else [])
            ++ [msg_done])%list)
      | Interrupt =>
          (Raise (SystemExit 0), (before ++ [PROMPT; msg_stopped])%list)
      | EndOfInput => (Raise EOFError, (before ++ [PROMPT])%list)
      end.
Proof.
  intros Hargv Hfs Hp Hne.
  unfold main. rewrite Hargv.
  unfold bind at 1. unfold print at 1, print_end at 1, modify at 1.
  unfold bind at 1. unfold print at 1, print_end at 1, modify at 1.
  unfold bind at 1. unfold print at 1, print_end at 1, modify at 1.
  unfold bind at 1.
  rewrite (parse_input_file_ok _ _ _ _ _ _ Hfs Hp).
  destruct platforms as [|p ps]; [congruence|].
  unfold bind at 1. unfold print at 1, print_end at 1, modify at 1.
  unfold bind at 1. unfold print at 1, print_end at 1, modify at 1.
  unfold bind at 1. rewrite check_all_run. cbn [app].
  unfold bind at 1.
  match goal with
  | |- context [display_results ?rs ?o] =>
      destruct (display_results_prints rs o
                  (proj1 (proj2 (results_of_sums env (p :: ps)))))
        as (rows & rate & -> & _)
  end.
  set (t := sum_results (results_of env O (p :: ps))).
  exists (start_lines (p :: ps) ++ all_checking_lines (p :: ps) ++ rows
          ++ summary_head t ++ [(rate ++ NL)%string; summary_foot])%list.
  cbv zeta.
  unfold bind at 1, try_except_KeyboardInterrupt, input.
  unfold bind at 1 2. unfold print_end at 1, modify at 1.
  unfold preamble, start_lines, PROMPT, msg_done, msg_stopped.
  destruct (stdin env) as [answer| |].
  - unfold ret at 1.
    destruct (String.eqb (PyStr.lower answer) "y").
    + rewrite display_detailed_results_run.
      unfold print, print_end, modify.
      repeat rewrite <- app_assoc. reflexivity.
    + unfold ret, print, print_end, modify.
      repeat rewrite <- app_assoc. reflexivity.
  - unfold raise, bind, print, print_end, modify, sys_exit, raise.
    repeat rewrite <- app_assoc. reflexivity.
  - unfold raise. repeat rewrite <- app_assoc. reflexivity.
Qed.

Lemma run_usage (env : environment) :
  (List.length (argv env) < 2)%nat ->
  run env = (1, (banner ++ usage_lines)%list).
Proof.
  intros Hlen. unfold run, top_level, main.
  destruct (argv env) as [|prog [|filename more]];
    [| |cbn [List.length] in Hlen; lia]; reflexivity.
Qed.

(** X14: without a file argument the program prints the usage text and
    exits with status 1, whatever the file system holds. *)
Theorem run_without_argument (env : environment) :
  (List.length (argv env) < 2)%nat ->
  run env = (1, (banner ++ usage_lines)%list).
Proof. exact (run_usage env). Qed.

Lemma run_without_argument_witness :
  run (mkEnv ["hsc.py"] (fun _ => NoSuchFile) (fun _ _ _ => Response 200)
         (fun _ => []) (Line "y"))
  = (1, (banner ++ usage_lines)%list).
Proof.
  apply (run_without_argument
           (mkEnv ["hsc.py"] (fun _ => NoSuchFile) (fun _ _ _ => Response 200)
              (fun _ => []) (Line "y"))).
  cbn. lia.
Defined.

Lemma lower_char_y (c : ascii) :
  PyStr.lower_char c = "y"%char -> c = "y"%char \/ c = "Y"%char.
Proof.
  destruct c as [[] [] [] [] [] [] [] []]; intros H;
    try (vm_compute in H; discriminate H); auto.
Qed.

Lemma lower_is_y (s : string) :
  String.eqb (PyStr.lower s) "y" = true <-> s = "y" \/ s = "Y".
Proof.
  split.
  - intros H. apply String.eqb_eq in H.
    destruct s as [|c [|d r]]; cbn [PyStr.lower] in H; try discriminate H.
    injection H as H. destruct (lower_char_y c H) as [-> | ->]; auto.
  - intros [-> | ->]; reflexivity.
Qed.

(** X15: when the file parses to at least one platform and the prompt is
    answered with a line, the program ends with status 0 and its closing
    line; the detailed report is written, between the prompt and the
    closing line, exactly when the answer is y or Y. *)
Theorem run_answered (env : environment) (filename answer : string)
    (platforms : PyDict.t (list string)) :
  reaches_prompt env filename platforms ->
  stdin env = Line answer ->
  exists before,
    run env
    = (0, (preamble filename ++ before ++ [PROMPT]
           ++ (if String.eqb (PyStr.lower answer) "y"
               then detail_lines (results_of env O platforms) else [])
           ++ [msg_done])%list)
    /\ (String.eqb (PyStr.lower answer) "y" = true
        <-> answer = "y" \/ answer = "Y").
Proof.
  intros ((prog & more & Hargv) & (lines & cur & Hfs & Hp) & Hne) Hin.
  destruct (main_run env prog filename more lines platforms cur Hargv Hfs Hp Hne)
    as (middle & Hmain).
  cbv zeta in Hmain. rewrite Hin in Hmain.
  exists middle. split; [|apply lower_is_y].
  unfold run, top_level. rewrite Hmain, <- app_assoc. reflexivity.
Qed.

(** X16: an interrupt at the prompt ends the program with status 0, after
    the notice that it was stopped; no detailed report is written. *)
Theorem run_interrupted_at_prompt (env : environment) (filename : string)
    (platforms : PyDict.t (list string)) :
  reaches_prompt env filename platforms ->
  stdin env = Interrupt ->
  exists before,
    run env = (0, (preamble filename ++ before ++ [PROMPT; msg_stopped])%list).
Proof.
  intros ((prog & more & Hargv) & (lines & cur & Hfs & Hp) & Hne) Hin.
  destruct (main_run env prog filename more lines platforms cur Hargv Hfs Hp Hne)
    as (middle & Hmain).
  cbv zeta in Hmain. rewrite Hin in Hmain.
  exists middle. unfold run, top_level. rewrite Hmain, <- app_assoc. reflexivity.
Qed.

(** X17: the end of the input at the prompt is not handled by [main]: the
    [EOFError] reaches the top level, which prints it as an error and
    exits with status 1, after the whole summary has been printed. *)
Theorem run_end_of_input_at_prompt (env : environment) (filename : string)
    (platforms : PyDict.t (list string)) :
  reaches_prompt env filename platforms ->
  stdin env = EndOfInput ->
  exists before,
    run env
    = (1, (preamble filename ++ before ++ [PROMPT; msg_error EOFError])%list).
Proof.
  intros ((prog & more & Hargv) & (lines & cur & Hfs & Hp) & Hne) Hin.
  destruct (main_run env prog filename more lines platforms cur Hargv Hfs Hp Hne)
    as (middle & Hmain).
  cbv zeta in Hmain. rewrite Hin in Hmain.
  exists middle. unfold run, top_level. rewrite Hmain.
  cbn [is_Exception]. unfold bind, print, print_end, modify, sys_exit, raise, msg_error.
  rewrite <- !app_assoc. reflexivity.
Qed.


Lemma read_platforms_lines (fs fs' : filesystem) (filename : string)
    (lines lines' : list string) (broken : option string) (out : list string) :
  fs filename = Opened lines broken ->
  fs' filename = Opened lines' broken ->
  parse_lines ([], None) lines' = parse_lines ([], None) lines ->
  parse_input_file fs' filename out = parse_input_file fs filename out.
Proof.
  intros H H' Hp. unfold parse_input_file, read_platforms.
  rewrite H, H', Hp. reflexivity.
Qed.

(** X19: lines that are neither a header nor a link line with a url (blank
    lines, free text, [>] lines without content) play no part: the file
    without them gives the same result. *)
Theorem parse_input_file_relevant (fs fs' : filesystem) (filename : string)
    (lines : list string) (broken : option string) (out : list string) :
  fs filename = Opened lines broken ->
  fs' filename = Opened (filter is_relevant lines) broken ->
  parse_input_file fs' filename out = parse_input_file fs filename out.
Proof.
  intros H H'. apply (read_platforms_lines fs fs' filename _ _ broken out H H').
  apply parse_lines_relevant.
Qed.

Lemma parse_input_file_relevant_witness :
  parse_input_file (fun _ => Opened ["A : 1"; "> x"] None) "input.txt" []
  = parse_input_file
      (fun _ => Opened [""; "A : 1"; "notes"; "> x"; ">"; "> ``````"] None)
      "input.txt" [].
Proof.
  apply (parse_input_file_relevant
           (fun _ => Opened [""; "A : 1"; "notes"; "> x"; ">"; "> ``````"] None)
           (fun _ => Opened ["A : 1"; "> x"] None) "input.txt"
           [""; "A : 1"; "notes"; "> x"; ">"; "> ``````"] None []);
    reflexivity.
Defined.

(** X20: whitespace at the two ends of the lines (indentation, the
    newline) plays no part: the file with every line trimmed gives the
    same result. *)
Theorem parse_input_file_trimmed (fs fs' : filesystem) (filename : string)
    (lines : list string) (broken : option string) (out : list string) :
  fs filename = Opened lines broken ->
  fs' filename = Opened (map PyStr.strip lines) broken ->
  parse_input_file fs' filename out = parse_input_file fs filename out.
Proof.
  intros H H'. apply (read_platforms_lines fs fs' filename _ _ broken out H H').
  apply parse_lines_strip.
Qed.

Lemma parse_input_file_trimmed_witness :
  parse_input_file (fun _ => Opened ["A : 1"; "> x"] None) "input.txt" []
  = parse_input_file (fun _ => Opened ["  A : 1 "; " > x  "] None) "input.txt" [].
Proof.
  apply (parse_input_file_trimmed
           (fun _ => Opened ["  A : 1 "; " > x  "] None)
           (fun _ => Opened ["A : 1"; "> x"] None) "input.txt"
           ["  A : 1 "; " > x  "] None []);
    reflexivity.
Defined.

(** X21: a file that is read to its end and has no header line (only link
    lines, free text or nothing) makes the program stop with the message
    that no platform was found and status 1. *)
Theorem run_without_header (env : environment) (prog filename : string)
    (more : list string) (lines : list string) :
  argv env = prog :: filename :: more ->
  fs env filename = Opened lines None ->
  Forall (fun raw => is_header raw = false) lines ->
  run env = (1, (preamble filename ++ [(msg_no_platform ++ NL)%string])%list).
Proof.
  intros Hargv Hfs Hno.
  assert (Hfatal : is_fatal_input (fs env filename) = true).
  { pose proof (parse_lines_no_header lines [] None eq_refl Hno) as E.
    unfold PyDict.t in E. rewrite Hfs. unfold is_fatal_input.
    rewrite E. reflexivity. }
  unfold run, top_level, main. rewrite Hargv.
  unfold bind at 1. unfold print at 1, print_end at 1, modify at 1.
  unfold bind at 1. unfold print at 1, print_end at 1, modify at 1.
  unfold bind at 1. unfold print at 1, print_end at 1, modify at 1.
  unfold bind at 1.
  rewrite (read_platforms_fatal _ _ _ Hfatal), Hfs. reflexivity.
Qed.

Lemma run_without_header_witness :
  run (mkEnv ["hsc.py"; "links.txt"] (fun _ => Opened ["> a.example"; "text"] None)
         (fun _ _ _ => Response 200) (fun _ => []) (Line "y"))
  = (1, (preamble "links.txt" ++ [(msg_no_platform ++ NL)%string])%list).
Proof.
  apply (run_without_header
           (mkEnv ["hsc.py"; "links.txt"]
              (fun _ => Opened ["> a.example"; "text"] None)
              (fun _ _ _ => Response 200) (fun _ => []) (Line "y"))
           "hsc.py" "links.txt" [] ["> a.example"; "text"]).
  - reflexivity.
  - reflexivity.
  - repeat constructor.
Defined.

Lemma run_answered_witness :
  exists before,
    run (mkEnv ["hsc.py"; "links.txt"] (fun _ => Opened ["A : 1"; "> unavailable"] None)
           (fun _ _ _ => Response 200) (fun _ => []) (Line "Y"))
    = (0, (preamble "links.txt" ++ before ++ [PROMPT]
           ++ detail_lines [mkResult "A" 1 0 1 [mkLink "unavailable" Error]]
           ++ [msg_done])%list)
    /\ (true = true <-> "Y" = "y" \/ "Y" = "Y").
Proof.
  apply (run_answered
           (mkEnv ["hsc.py"; "links.txt"]
              (fun _ => Opened ["A : 1"; "> unavailable"] None)
              (fun _ _ _ => Response 200) (fun _ => []) (Line "Y"))
           "links.txt" "Y" [("A", ["unavailable"])]).
  - split; [eexists _, _; reflexivity|].
    split; [eexists _, _; split; reflexivity | discriminate].
  - reflexivity.
Defined.

Lemma run_interrupted_at_prompt_witness :
  exists before,
    run (mkEnv ["hsc.py"; "links.txt"] (fun _ => Opened ["A : 1"; "> unavailable"] None)
           (fun _ _ _ => Response 200) (fun _ => []) Interrupt)
    = (0, (preamble "links.txt" ++ before ++ [PROMPT; msg_stopped])%list).
Proof.
  apply (run_interrupted_at_prompt
           (mkEnv ["hsc.py"; "links.txt"]
              (fun _ => Opened ["A : 1"; "> unavailable"] None)
              (fun _ _ _ => Response 200) (fun _ => []) Interrupt)
           "links.txt" [("A", ["unavailable"])]).
  - split; [eexists _, _; reflexivity|].
    split; [eexists _, _; split; reflexivity | discriminate].
  - reflexivity.
Defined.

Lemma run_end_of_input_at_prompt_witness :
  exists before,
    run (mkEnv ["hsc.py"; "links.txt"] (fun _ => Opened ["A : 1"; "> unavailable"] None)
           (fun _ _ _ => Response 200) (fun _ => []) EndOfInput)
    = (1, (preamble "links.txt" ++ before ++ [PROMPT; msg_error EOFError])%list).
Proof.
  apply (run_end_of_input_at_prompt
           (mkEnv ["hsc.py"; "links.txt"]
              (fun _ => Opened ["A : 1"; "> unavailable"] None)
              (fun _ _ _ => Response 200) (fun _ => []) EndOfInput)
           "links.txt" [("A", ["unavailable"])]).
  - split; [eexists _, _; reflexivity|].
    split; [eexists _, _; split; reflexivity | discriminate].
  - reflexivity.
Defined.

Lemma display_detailed_results_lines_witness :
  exists lines,
    display_detailed_results
      [mkResult "A" 2 1 1 [mkLink "https://a.example" Active; mkLink "unavailable" Error]] []
    = (Ret tt, lines)
    /\ List.length lines = 5%nat
    /\ In (link_line 2 (mkLink "unavailable" Error)) lines.
Proof.
  destruct (display_detailed_results_lines
              [mkResult "A" 2 1 1
                 [mkLink "https://a.example" Active; mkLink "unavailable" Error]] [])
    as (lines & Hrun & Hlen & Hnum).
  exists lines. split; [exact Hrun|]. split; [exact Hlen|].
  apply (Hnum _ 1%nat (mkLink "unavailable" Error) (or_introl eq_refl) eq_refl).
Defined.
